(** * solana-moon-scanner: event discovery and connection resilience

    A shallow embedding of the three core components of the scanner,
    - [src/core/dex_monitor.py]       (module [Monitor] and [Aliasing]),
    - [src/core/websocket_manager.py] (module [WebSocket]),
    - [src/core/rpc_client.py]        (module [Rpc]),
    together with the properties the specification states about them.

    Conventions.
    - A [datetime] is a number of microseconds ([Z]); a [timedelta] of
      [m] minutes is [minutes m].  Ages are compared exactly, where the
      source divides a float number of seconds by 60.
    - An [await] that can raise is modelled by an explicit outcome; the
      answers of the outside world (RPC responses, socket events, the
      clock) are parameters of the operations.
    - Logging and metrics are recorded as a list of effects. *)

From Stdlib Require Import ZArith Lia Bool List Ascii String Sorted.
From stdpp Require Import gmap strings list fin_maps.

Open Scope Z_scope.

(** ** Time *)

Definition minutes (m : Z) : Z := m * 60 * 1000000.
Definition seconds (s : Z) : Z := s * 1000000.

(** ** Python string helpers used by the heuristic parser *)

Module PyStr.

Definition lower_ascii (c : ascii) : ascii :=
  let n := nat_of_ascii c in
  if ((65 <=? n)%nat && (n <=? 90)%nat)%bool then ascii_of_nat (n + 32) else c.

Fixpoint lower (s : string) : string :=
  match s with
  | EmptyString => EmptyString
  | String c r => String (lower_ascii c) (lower r)
  end.

(** [needle in hay] *)
Fixpoint contains (needle hay : string) : bool :=
  if String.prefix needle hay then true
  else match hay with
       | EmptyString => false
       | String _ r => contains needle r
       end.

(** [s.split(sep)[0]] for a one-character separator *)
Fixpoint split_head (sep : ascii) (s : string) : string :=
  match s with
  | EmptyString => EmptyString
  | String c r => if Ascii.eqb c sep then EmptyString else String c (split_head sep r)
  end.

(** truthiness of a string: [bool(s)] *)
Definition truthy (s : string) : bool :=
  match s with EmptyString => false | _ => true end.

End PyStr.

(** ** The pair monitor: [src/core/dex_monitor.py] *)

Module Monitor.

Definition DEX_PROGRAM_IDS : list (string * string) :=
  [ ("raydium"%string,    "675kPX9MHTjS2zt1qfr1NYHuzeLXfQM9H24wFSUt1Mp8"%string);
    ("raydium_v3"%string, "CAMMCzo5YL8w4VFF8KVHrK22GGUsp5VTaW7grrKgrWqK"%string);
    ("orca"%string,       "whirLbMiicVdio4qvUfM5KAg6Ct8VwpYzGff3uctyCc"%string);
    ("orca_v2"%string,    "9W959DqEETiGZocYWCQPaJ6sBmUzgfxXfqGeTEdp3aQP"%string);
    ("jupiter"%string,    "JUP6LkbZbjS1jKKwapdHNy74zcZ3tLUZoi5QNyVTaV4"%string) ].

(** [DEX_PROGRAM_IDS[name]] for the five names the module defines *)
Definition program_id_of (name : string) : string :=
  match List.find (fun e => String.eqb (fst e) name) DEX_PROGRAM_IDS with
  | Some e => snd e
  | None => EmptyString
  end.

(** [@dataclass TokenPair] *)
Record TokenPair := mkTokenPair {
  token_address : string;
  pair_address : string;
  dex : string;
  base_token : string;
  quote_token : string;
  created_at : Z;
  signature : string;
  pool_info : gmap string string
}.

(** [TokenPair.age_minutes], kept in microseconds *)
Definition age (now : Z) (p : TokenPair) : Z := now - created_at p.

(** [TokenPair.is_eligible]: [self.age_minutes() <= max_age_minutes] *)
Definition is_eligible (now : Z) (max_age_minutes : Z) (p : TokenPair) : bool :=
  age now p <=? minutes max_age_minutes.

(** What awaiting a registered callback does. *)
Inductive CallResult :=
| Returned
| RaisedException (msg : string).

(** An observer: [register_callback] reads [callback.__name__], so a
    registered callback has a name. *)
Record Callback := mkCallback {
  cb_name : string;
  cb_call : TokenPair -> CallResult
}.

Inductive Effect :=
| CallbackInvoked (name : string) (pair : TokenPair)
| LogInfo (msg : string)
| LogWarning (msg : string)
| LogError (msg : string)
| TokensScannedInc
| ActiveMonitorsInc
| ActiveMonitorsDec.

(** The activities [start] hands to [asyncio.create_task]. *)
Inductive Task :=
| WebsocketMonitoring
| PollingMonitoring
| CleanupOldPairs.

(** [class DEXMonitor]: the configuration it reads and its own state. *)
Record DEXMonitor := mkDEXMonitor {
  max_token_age_minutes : Z;
  enable_websocket : bool;
  monitored_dexs : list string;
  discovered_pairs : gmap string TokenPair;
  seen_signatures : gset string;
  callbacks : list Callback;
  running : bool
}.

(** [DEXMonitor.__init__] *)
Definition init (max_age : Z) (ws : bool) (dexs : list string) : DEXMonitor :=
  {| max_token_age_minutes := max_age;
     enable_websocket := ws;
     monitored_dexs := dexs;
     discovered_pairs := ∅;
     seen_signatures := ∅;
     callbacks := [];
     running := false |}.

Definition set_pairs (m : gmap string TokenPair) (s : DEXMonitor) : DEXMonitor :=
  {| max_token_age_minutes := max_token_age_minutes s;
     enable_websocket := enable_websocket s;
     monitored_dexs := monitored_dexs s;
     discovered_pairs := m;
     seen_signatures := seen_signatures s;
     callbacks := callbacks s;
     running := running s |}.

Definition set_seen (g : gset string) (s : DEXMonitor) : DEXMonitor :=
  {| max_token_age_minutes := max_token_age_minutes s;
     enable_websocket := enable_websocket s;
     monitored_dexs := monitored_dexs s;
     discovered_pairs := discovered_pairs s;
     seen_signatures := g;
     callbacks := callbacks s;
     running := running s |}.

Definition set_callbacks (l : list Callback) (s : DEXMonitor) : DEXMonitor :=
  {| max_token_age_minutes := max_token_age_minutes s;
     enable_websocket := enable_websocket s;
     monitored_dexs := monitored_dexs s;
     discovered_pairs := discovered_pairs s;
     seen_signatures := seen_signatures s;
     callbacks := l;
     running := running s |}.

Definition set_running (b : bool) (s : DEXMonitor) : DEXMonitor :=
  {| max_token_age_minutes := max_token_age_minutes s;
     enable_websocket := enable_websocket s;
     monitored_dexs := monitored_dexs s;
     discovered_pairs := discovered_pairs s;
     seen_signatures := seen_signatures s;
     callbacks := callbacks s;
     running := b |}.

(** [register_callback] *)
Definition register_callback (cb : Callback) (s : DEXMonitor)
  : DEXMonitor * list Effect :=
  (set_callbacks (callbacks s ++ [cb]) s,
   [LogInfo ("Registered callback: " ++ cb_name cb)]).

(** [start]: the state after the call, the tasks created, the effects. *)
Definition start (s : DEXMonitor) : DEXMonitor * list Task * list Effect :=
  if running s then
    (s, [], [LogWarning "DEX monitor already running"])
  else
    (set_running true s,
     (if enable_websocket s then [WebsocketMonitoring] else [])
       ++ [PollingMonitoring] ++ [CleanupOldPairs],
     [ActiveMonitorsInc; LogInfo "Starting DEX monitor..."; LogInfo "DEX monitor started"]).

(** [stop], without the websocket manager's own teardown. *)
Definition stop (s : DEXMonitor) : DEXMonitor * list Effect :=
  (set_running false s, [ActiveMonitorsDec; LogInfo "DEX monitor stopped"]).

(** *** Transactions as the RPC returns them (the fields the parser reads) *)

Record Instruction := mkInstruction {
  programId : string;        (* [instruction.get("programId", "")] *)
  parsed_type : string       (* [instruction.get("parsed", {}).get("type", "")] *)
}.

(** An entry of [accountKeys]: a string, a dict (with or without a
    ["pubkey"]), or anything else. *)
Inductive Account :=
| AccountStr (pubkey : string)
| AccountDict (pubkey : option string)
| AccountOther.

Record TxData := mkTxData {
  meta_err : bool;           (* truthiness of [tx_data["meta"]["err"]] *)
  blockTime : option Z;      (* seconds *)
  instructions : list Instruction;
  accountKeys : list Account
}.

(** [await self.rpc_client.get_transaction(signature)] *)
Inductive TxResponse :=
| TxRaises (msg : string)             (* the call raises *)
| TxNoResult                          (* falsy, or no ["result"] key *)
| TxResult (tx : option TxData).      (* [tx["result"]], possibly [None] *)

(** [await self.rpc_client.get_signatures_for_address(program_id, limit=50)] *)
Inductive SigResponse :=
| SigRaises (msg : string)
| SigList (sigs : list string).

(** The outside world as one monitoring step sees it. *)
Record Env := mkEnv {
  now : Z;
  get_transaction : string -> TxResponse;
  get_signatures_for_address : string -> SigResponse
}.

(** [_is_system_account] *)
Definition _is_system_account (pubkey : string) : bool :=
  existsb (String.eqb pubkey)
    [ "11111111111111111111111111111111"%string;
      "TokenkegQfeZyiNwAJbNbGKPFXCWuBvf9Ss623VQ5DA"%string;
      "ATokenGPvbdGVxr1b2hvZbsiqW5xWH25efTNsLJA8knL"%string ].

(** [_get_dex_name] *)
Definition _get_dex_name (program_id : string) : string :=
  match List.find (fun e => String.eqb (snd e) program_id) DEX_PROGRAM_IDS with
  | Some e => PyStr.split_head "_"%char (fst e)
  | None => "unknown"%string
  end.

(** [_get_program_ids] *)
Definition _get_program_ids (s : DEXMonitor) : list string :=
  List.flat_map
    (fun d =>
       if String.eqb d "raydium" then [program_id_of "raydium"; program_id_of "raydium_v3"]
       else if String.eqb d "orca" then [program_id_of "orca"; program_id_of "orca_v2"]
       else if String.eqb d "jupiter" then [program_id_of "jupiter"]
       else [])
    (monitored_dexs s).

(** [_is_pool_creation_instruction] *)
Definition _is_pool_creation_instruction (i : Instruction) (program_id : string) : bool :=
  if negb (String.eqb (programId i) program_id) then false
  else existsb (fun t => PyStr.contains t (PyStr.lower (parsed_type i)))
               [ "initialize"%string; "create"%string ].

(** The loop of [_extract_pair_info] over [accounts[:10]]. *)
Definition token_mints_of (accounts : list Account) : list string :=
  List.flat_map
    (fun a =>
       let keep (pubkey : string) :=
         if (PyStr.truthy pubkey
             && (30 <? Z.of_nat (String.length pubkey))
             && negb (_is_system_account pubkey))%bool
         then [pubkey] else [] in
       match a with
       | AccountStr k => keep k
       | AccountDict (Some k) => keep k
       | AccountDict None => keep EmptyString
       | AccountOther => []
       end)
    (take 10 accounts).

(** [_extract_pair_info]; [None] also stands for the exception the
    function catches when [accounts[0]] is neither a string nor a dict. *)
Definition _extract_pair_info (tx_data : TxData) (program_id sig : string)
    (created : Z) : option TokenPair :=
  let accounts := accountKeys tx_data in
  if (Z.of_nat (List.length accounts) <? 3) then None
  else
    match token_mints_of accounts, accounts with
    | m0 :: m1 :: _, a0 :: _ =>
        match a0 with
        | AccountOther => None
        | _ =>
            Some {| token_address := m0;
                    pair_address := match a0 with
                                    | AccountStr k => k
                                    | AccountDict (Some k) => k
                                    | _ => EmptyString
                                    end;
                    dex := _get_dex_name program_id;
                    base_token := m0;
                    quote_token := m1;
                    created_at := created;
                    signature := sig;
                    pool_info := ∅ |}
        end
    | _, _ => None
    end.

(** [_parse_transaction]; a [None] result of the RPC makes the first
    [tx_data.get] raise, which the function catches. *)
Definition _parse_transaction (e : Env) (s : DEXMonitor) (tx : option TxData)
    (program_id sig : string) : option TokenPair :=
  match tx with
  | None => None
  | Some tx_data =>
      if meta_err tx_data then None
      else
        let created :=
          match blockTime tx_data with
          | None => now e
          | Some bt => if bt =? 0 then now e else seconds bt
          end in
        if minutes (max_token_age_minutes s) <? now e - created then None
        else
          (* every matching instruction extracts the same pair, from
             [tx_data] alone: the first match decides *)
          match List.find (fun i => _is_pool_creation_instruction i program_id)
                          (instructions tx_data) with
          | Some _ => _extract_pair_info tx_data program_id sig created
          | None => None
          end
  end.

(** The per-callback body of the loop in [_handle_new_pair]:
    [try: await callback(pair) except Exception as e: log]. *)
Definition notify (pair : TokenPair) (cb : Callback) : list Effect :=
  CallbackInvoked (cb_name cb) pair ::
  match cb_call cb pair with
  | Returned => []
  | RaisedException msg => [LogError ("Error in callback " ++ cb_name cb ++ ": " ++ msg)]
  end.

(** [_handle_new_pair] *)
Definition _handle_new_pair (pair : TokenPair) (s : DEXMonitor)
  : DEXMonitor * list Effect :=
  match discovered_pairs s !! token_address pair with
  | Some _ => (s, [])
  | None =>
      (set_pairs (<[token_address pair := pair]> (discovered_pairs s)) s,
       TokensScannedInc
         :: LogInfo ("New pair discovered: " ++ token_address pair ++ " on " ++ dex pair)
         :: List.flat_map (notify pair) (callbacks s))
  end.

(** How one iteration of a loop ends: the loop goes on, or an exception
    leaves it. *)
Inductive Flow := Next | Raise (msg : string).

(** The body of the [for sig_info in signatures] loop of [_scan_program]. *)
Definition scan_signature (e : Env) (program_id sig : string) (s : DEXMonitor)
  : DEXMonitor * list Effect * Flow :=
  if decide (sig ∈ seen_signatures s) then (s, [], Next)
  else
    let s1 := set_seen ({[sig]} ∪ seen_signatures s) s in
    match get_transaction e sig with
    | TxRaises msg => (s1, [], Raise msg)
    | TxNoResult => (s1, [], Next)
    | TxResult tx =>
        match _parse_transaction e s1 tx program_id sig with
        | Some found => let '(s2, fx) := _handle_new_pair found s1 in (s2, fx, Next)
        | None => (s1, [], Next)
        end
    end.

Fixpoint scan_signatures (e : Env) (program_id : string) (sigs : list string)
    (s : DEXMonitor) : DEXMonitor * list Effect :=
  match sigs with
  | [] => (s, [])
  | sig :: rest =>
      match scan_signature e program_id sig s with
      | (s1, fx, Next) =>
          let '(s2, fx') := scan_signatures e program_id rest s1 in (s2, fx ++ fx')
      | (s1, fx, Raise msg) => (s1, fx ++ [LogError ("Error in _scan_program: " ++ msg)])
      end
  end.

(** [_scan_program]: the polling path for one program. *)
Definition _scan_program (e : Env) (program_id : string) (s : DEXMonitor)
  : DEXMonitor * list Effect :=
  match get_signatures_for_address e program_id with
  | SigRaises msg => (s, [LogError ("Error in _scan_program: " ++ msg)])
  | SigList sigs => scan_signatures e program_id sigs s
  end.

(** The [for program_id in self._get_program_ids()] loop of
    [_handle_log_event]: the first program that parses wins. *)
Fixpoint first_parse (e : Env) (s : DEXMonitor) (tx : option TxData) (sig : string)
    (pids : list string) : option TokenPair :=
  match pids with
  | [] => None
  | pid :: rest =>
      match _parse_transaction e s tx pid sig with
      | Some found => Some found
      | None => first_parse e s tx sig rest
      end
  end.

(** [_handle_log_event]: the push path; [sig] is [event.get("signature")]. *)
Definition _handle_log_event (e : Env) (sig : option string) (s : DEXMonitor)
  : DEXMonitor * list Effect :=
  match sig with
  | None => (s, [])
  | Some sg =>
      if negb (PyStr.truthy sg) then (s, [])
      else if decide (sg ∈ seen_signatures s) then (s, [])
      else
        let s1 := set_seen ({[sg]} ∪ seen_signatures s) s in
        match get_transaction e sg with
        | TxRaises msg => (s1, [LogError ("Error handling log event: " ++ msg)])
        | TxNoResult => (s1, [])
        | TxResult tx =>
            match first_parse e s1 tx sg (_get_program_ids s1) with
            | Some found => _handle_new_pair found s1
            | None => (s1, [])
            end
        end
  end.

(** One pass of the body of [_cleanup_old_pairs], after the sleep. *)
Definition old_pairs (now_ : Z) (s : DEXMonitor) : list string :=
  let cutoff := now_ - minutes (max_token_age_minutes s * 2) in
  List.map fst
    (List.filter (fun kp => created_at (snd kp) <? cutoff)
                 (map_to_list (discovered_pairs s))).

Definition cleanup_pass (now_ : Z) (s : DEXMonitor) : DEXMonitor * list Effect :=
  let old := old_pairs now_ s in
  (set_pairs (List.fold_left (fun m k => delete k m) old (discovered_pairs s)) s,
   match old with
   | [] => []
   | _ => [LogInfo "Cleaned up old pairs from memory"]
   end).

(** [get_active_pairs] *)
Definition get_active_pairs (now_ : Z) (s : DEXMonitor) : list TokenPair :=
  List.filter (is_eligible now_ (max_token_age_minutes s))
              (List.map snd (map_to_list (discovered_pairs s))).

(** What the store keeps true: a pair is filed under its token address. *)
Definition store_keyed (s : DEXMonitor) : Prop :=
  forall k p, discovered_pairs s !! k = Some p -> token_address p = k.

(** The two discovery paths, applied to one transaction id. *)
Inductive Path :=
| Polling (program_id : string)
| Push.

Definition process (e : Env) (via : Path) (t : string) (s : DEXMonitor)
  : DEXMonitor * list Effect :=
  match via with
  | Polling program_id => scan_signatures e program_id [t] s
  | Push => _handle_log_event e (Some t) s
  end.

(** The callbacks a list of effects records as invoked, in order. *)
Definition invoked (fx : list Effect) : list (string * TokenPair) :=
  List.flat_map (fun f => match f with
                          | CallbackInvoked n p => [(n, p)]
                          | _ => []
                          end) fx.

(** Sample data: a pool creation on Raydium, two observers of which the
    first raises on every call. *)
Definition raydium_id : string := "675kPX9MHTjS2zt1qfr1NYHuzeLXfQM9H24wFSUt1Mp8".

Definition sample_tx : TxData :=
  {| meta_err := false;
     blockTime := None;
     instructions := [ {| programId := raydium_id; parsed_type := "initializePool" |} ];
     accountKeys := [ AccountStr "So11111111111111111111111111111111111111112";
                      AccountStr "EPjFWdd5AufqSSqeM2qN1xzybapC8G4wEGGkZwyTDt1v";
                      AccountStr "TokenkegQfeZyiNwAJbNbGKPFXCWuBvf9Ss623VQ5DA" ] |}.

Definition sample_env : Env :=
  {| now := minutes 1000;
     get_transaction := fun _ => TxResult (Some sample_tx);
     get_signatures_for_address := fun _ => SigList [ "sigA"%string ] |}.

Definition failing_observer : Callback :=
  {| cb_name := "on_pair_broken"; cb_call := fun _ => RaisedException "boom" |}.

Definition good_observer : Callback :=
  {| cb_name := "on_pair"; cb_call := fun _ => Returned |}.

Definition sample_monitor : DEXMonitor :=
  fst (register_callback good_observer
         (fst (register_callback failing_observer (init 60 true [ "raydium"%string ])))).

(** The pair [sample_tx] parses to, under the signature ["sigA"]. *)
Definition sample_found : TokenPair :=
  {| token_address := "So11111111111111111111111111111111111111112";
     pair_address := "So11111111111111111111111111111111111111112";
     dex := "raydium";
     base_token := "So11111111111111111111111111111111111111112";
     quote_token := "EPjFWdd5AufqSSqeM2qN1xzybapC8G4wEGGkZwyTDt1v";
     created_at := minutes 1000;
     signature := "sigA";
     pool_info := ∅ |}.

(** An RPC that times out on the transaction of ["sigB"]. *)
Definition flaky_env : Env :=
  {| now := minutes 1000;
     get_transaction := fun t => if String.eqb t "sigB" then TxRaises "timeout"
                                 else TxResult (Some sample_tx);
     get_signatures_for_address := fun _ =>
       SigList [ "sigA"%string; "sigB"%string; "sigC"%string ] |}.

(** [_scan_dexs]: every program in turn; [_scan_program] catches its own
    exceptions, so the [except] of this loop is never entered. *)
Fixpoint scan_programs (e : Env) (program_ids : list string) (s : DEXMonitor)
  : DEXMonitor * list Effect :=
  match program_ids with
  | [] => (s, [])
  | program_id :: rest =>
      let '(s1, fx) := _scan_program e program_id s in
      let '(s2, fx') := scan_programs e rest s1 in
      (s2, fx ++ fx')
  end.

Definition _scan_dexs (e : Env) (s : DEXMonitor) : DEXMonitor * list Effect :=
  scan_programs e (_get_program_ids s) s.

(** What happens to a monitor, one event at a time: a pass of the polling
    loop, a log event of the push path, a pass of the sweep, and the calls
    of its user. *)
Inductive Step :=
| PollPass (e : Env)
| LogEvent (e : Env) (sig : option string)
| Sweep (now_ : Z)
| Register (cb : Callback)
| Start
| Stop.

Definition step (st : Step) (s : DEXMonitor) : DEXMonitor * list Effect :=
  match st with
  | PollPass e => _scan_dexs e s
  | LogEvent e sig => _handle_log_event e sig s
  | Sweep now_ => cleanup_pass now_ s
  | Register cb => register_callback cb s
  | Start => let '(s1, _, fx) := start s in (s1, fx)
  | Stop => stop s
  end.

Fixpoint steps (sts : list Step) (s : DEXMonitor) : DEXMonitor * list Effect :=
  match sts with
  | [] => (s, [])
  | st :: rest =>
      let '(s1, fx) := step st s in
      let '(s2, fx') := steps rest s1 in
      (s2, fx ++ fx')
  end.

(** Every stored pair is filed under its token address and carries a
    signature that has been marked as seen. *)
Definition store_sound (s : DEXMonitor) : Prop :=
  forall k p, discovered_pairs s !! k = Some p ->
              token_address p = k /\ signature p ∈ seen_signatures s.

(** From [s] to [s'] nothing was forgotten: every signature seen is still
    seen, every stored pair is still stored as it was, and the
    configuration, the observers and the running flag are the same. *)
Definition grows (s s' : DEXMonitor) : Prop :=
  seen_signatures s ⊆ seen_signatures s'
  /\ (forall k p, discovered_pairs s !! k = Some p -> discovered_pairs s' !! k = Some p)
  /\ callbacks s' = callbacks s
  /\ running s' = running s
  /\ max_token_age_minutes s' = max_token_age_minutes s
  /\ enable_websocket s' = enable_websocket s
  /\ monitored_dexs s' = monitored_dexs s.

(** The account keys a transaction offers as strings: [accounts[:10]],
    each as the loop of [_extract_pair_info] reads it. *)
Definition candidate_keys (tx_data : TxData) : list string :=
  List.flat_map (fun a => match a with
                          | AccountStr k => [k]
                          | AccountDict (Some k) => [k]
                          | _ => []
                          end)
                (take 10 (accountKeys tx_data)).

End Monitor.

(** ** The subscription manager: [src/core/websocket_manager.py] *)

Module WebSocket.

(** A Python [dict] with integer keys, in insertion order. *)
Section Dict.
Context {V : Type}.

Definition dict_mem (k : Z) (d : list (Z * V)) : bool :=
  existsb (fun e => fst e =? k) d.

Fixpoint dict_get (k : Z) (d : list (Z * V)) : option V :=
  match d with
  | [] => None
  | (k', v) :: r => if k' =? k then Some v else dict_get k r
  end.

(** [d[k] = v]: in place when the key is there, at the end otherwise *)
Fixpoint dict_set (k : Z) (v : V) (d : list (Z * V)) : list (Z * V) :=
  match d with
  | [] => [(k, v)]
  | (k', v') :: r => if k' =? k then (k, v) :: r else (k', v') :: dict_set k v r
  end.

(** [del d[k]]; [None] is the [KeyError] *)
Definition dict_del (k : Z) (d : list (Z * V)) : option (list (Z * V)) :=
  if dict_mem k d then Some (List.filter (fun e => negb (fst e =? k)) d) else None.

End Dict.

(** A handler registered with a subscription: a name, and whether
    awaiting it raises. *)
Record Handler := mkHandler {
  h_name : string;
  h_raises : bool
}.

(** An entry of [self.subscriptions]: the ["type"], the filter, the
    ["callback"]. *)
Inductive Subscription :=
| Logs (program_ids : list string) (callback : Handler)
| AccountChanges (address : string) (callback : Handler).

Definition callback_of (sub : Subscription) : Handler :=
  match sub with
  | Logs _ h => h
  | AccountChanges _ h => h
  end.

(** The JSON-RPC requests the manager sends. *)
Inductive Request :=
| LogsSubscribe (id : Z) (program_id : string)
| AccountSubscribe (id : Z) (address : string)
| LogsUnsubscribe (id : Z)
| AccountUnsubscribe (id : Z).

Inductive Exn :=
| ConnectFailed            (* whatever [websockets.connect] raised *)
| WebSocketException       (* a send, receive or ping on a broken socket *)
| AttributeError           (* a method called on [self.ws] when it is [None] *)
| KeyError
| JSONDecodeError.

(** What [await asyncio.wait_for(self.ws.recv(), timeout=30)] followed by
    [json.loads] gives. *)
Inductive Received :=
| Confirmation                                        (* has "result" and "id" *)
| Notification (method : string) (subscription : option Z)   (* "method", "params" *)
| OtherMessage
| Malformed
| Timeout
| TransportError.

Inductive Effect :=
| Connected (conn : nat)
| Closed (conn : nat)
| Sent (conn : nat) (req : Request)
| Pinged (conn : nat)
| Slept (secs : Z)
| Dispatched (h : string)
| Info (msg : string)
| Warning (msg : string)
| Error (msg : string)
| ErrorMetric (error_type : string).

(** The answers of the network, by how many calls of each kind came
    before. *)
Record World := mkWorld {
  connect_ok : nat -> bool;
  send_ok : nat -> bool;
  ping_ok : nat -> bool;
  recv : nat -> Received
}.

(** [class WebSocketManager], with the configuration it reads, the
    counts of network calls made so far and the effects so far. *)
Record WebSocketManager := mkWebSocketManager {
  wss_url : string;                     (* [config.get_wss_url()], empty when unset *)
  enable_websocket : bool;
  ws : option nat;
  subscriptions : list (Z * Subscription);
  subscription_id_counter : Z;
  callbacks : list (Z * Handler);
  running : bool;
  _reconnect_attempts : Z;
  _max_reconnect_attempts : Z;
  n_connect : nat;
  n_send : nat;
  n_ping : nat;
  n_recv : nat;
  effects : list Effect
}.

(** [WebSocketManager.__init__] *)
Definition init (url : string) (enabled : bool) : WebSocketManager :=
  {| wss_url := url; enable_websocket := enabled; ws := None;
     subscriptions := []; subscription_id_counter := 0; callbacks := [];
     running := false; _reconnect_attempts := 0; _max_reconnect_attempts := 10;
     n_connect := 0; n_send := 0; n_ping := 0; n_recv := 0; effects := [] |}.

Definition emit (fx : list Effect) (s : WebSocketManager) : WebSocketManager :=
  {| wss_url := wss_url s; enable_websocket := enable_websocket s; ws := ws s;
     subscriptions := subscriptions s;
     subscription_id_counter := subscription_id_counter s;
     callbacks := callbacks s; running := running s;
     _reconnect_attempts := _reconnect_attempts s;
     _max_reconnect_attempts := _max_reconnect_attempts s;
     n_connect := n_connect s; n_send := n_send s; n_ping := n_ping s;
     n_recv := n_recv s; effects := effects s ++ fx |}.

Definition set_ws (c : option nat) (s : WebSocketManager) : WebSocketManager :=
  {| wss_url := wss_url s; enable_websocket := enable_websocket s; ws := c;
     subscriptions := subscriptions s;
     subscription_id_counter := subscription_id_counter s;
     callbacks := callbacks s; running := running s;
     _reconnect_attempts := _reconnect_attempts s;
     _max_reconnect_attempts := _max_reconnect_attempts s;
     n_connect := n_connect s; n_send := n_send s; n_ping := n_ping s;
     n_recv := n_recv s; effects := effects s |}.

Definition set_tables (subs : list (Z * Subscription)) (cbs : list (Z * Handler))
    (s : WebSocketManager) : WebSocketManager :=
  {| wss_url := wss_url s; enable_websocket := enable_websocket s; ws := ws s;
     subscriptions := subs;
     subscription_id_counter := subscription_id_counter s;
     callbacks := cbs; running := running s;
     _reconnect_attempts := _reconnect_attempts s;
     _max_reconnect_attempts := _max_reconnect_attempts s;
     n_connect := n_connect s; n_send := n_send s; n_ping := n_ping s;
     n_recv := n_recv s; effects := effects s |}.

Definition set_counter (c : Z) (s : WebSocketManager) : WebSocketManager :=
  {| wss_url := wss_url s; enable_websocket := enable_websocket s; ws := ws s;
     subscriptions := subscriptions s;
     subscription_id_counter := c;
     callbacks := callbacks s; running := running s;
     _reconnect_attempts := _reconnect_attempts s;
     _max_reconnect_attempts := _max_reconnect_attempts s;
     n_connect := n_connect s; n_send := n_send s; n_ping := n_ping s;
     n_recv := n_recv s; effects := effects s |}.

Definition set_running (b : bool) (s : WebSocketManager) : WebSocketManager :=
  {| wss_url := wss_url s; enable_websocket := enable_websocket s; ws := ws s;
     subscriptions := subscriptions s;
     subscription_id_counter := subscription_id_counter s;
     callbacks := callbacks s; running := b;
     _reconnect_attempts := _reconnect_attempts s;
     _max_reconnect_attempts := _max_reconnect_attempts s;
     n_connect := n_connect s; n_send := n_send s; n_ping := n_ping s;
     n_recv := n_recv s; effects := effects s |}.

Definition set_attempts (a : Z) (s : WebSocketManager) : WebSocketManager :=
  {| wss_url := wss_url s; enable_websocket := enable_websocket s; ws := ws s;
     subscriptions := subscriptions s;
     subscription_id_counter := subscription_id_counter s;
     callbacks := callbacks s; running := running s;
     _reconnect_attempts := a;
     _max_reconnect_attempts := _max_reconnect_attempts s;
     n_connect := n_connect s; n_send := n_send s; n_ping := n_ping s;
     n_recv := n_recv s; effects := effects s |}.

Definition set_counts (c sd pg rc : nat) (s : WebSocketManager) : WebSocketManager :=
  {| wss_url := wss_url s; enable_websocket := enable_websocket s; ws := ws s;
     subscriptions := subscriptions s;
     subscription_id_counter := subscription_id_counter s;
     callbacks := callbacks s; running := running s;
     _reconnect_attempts := _reconnect_attempts s;
     _max_reconnect_attempts := _max_reconnect_attempts s;
     n_connect := c; n_send := sd; n_ping := pg; n_recv := rc;
     effects := effects s |}.

(** *** Methods: a state and exception monad *)

Inductive Res (A : Type) :=
| Ok (a : A)
| Raised (e : Exn).
Arguments Ok {A} a.
Arguments Raised {A} e.

Definition M (A : Type) : Type := WebSocketManager -> WebSocketManager * Res A.

Definition ret {A} (a : A) : M A := fun s => (s, Ok a).
Definition raise {A} (e : Exn) : M A := fun s => (s, Raised e).
Definition bind {A B} (c : M A) (k : A -> M B) : M B :=
  fun s => match c s with
           | (s1, Ok a) => k a s1
           | (s1, Raised e) => (s1, Raised e)
           end.
Definition get : M WebSocketManager := fun s => (s, Ok s).
Definition modify (f : WebSocketManager -> WebSocketManager) : M unit :=
  fun s => (f s, Ok tt).
Definition log (fx : list Effect) : M unit := modify (emit fx).

Declare Scope ws_scope.
Delimit Scope ws_scope with ws.
Notation "'do' x <- c ; k" := (bind c (fun x => k))
  (at level 10, x name, c at level 100, k at level 200) : ws_scope.
Notation "'call' c ; k" := (bind c (fun _ => k))
  (at level 10, c at level 100, k at level 200) : ws_scope.
Local Open Scope ws_scope.

(** [connect] *)
Definition connect (w : World) : M unit :=
  do s <- get;
  if negb (PyStr.truthy (wss_url s)) then log [Warning "No WebSocket URL configured"]
  else if negb (enable_websocket s) then log [Info "WebSocket monitoring disabled"]
  else
    let n := n_connect s in
    call modify (set_counts (S n) (n_send s) (n_ping s) (n_recv s));
    if connect_ok w n then
      call modify (set_ws (Some n));
      call log [Connected n; Info "WebSocket connected"];
      modify (set_attempts 0)
    else
      call log [Error "Failed to connect WebSocket"; ErrorMetric "websocket_connect"];
      raise ConnectFailed.

(** [disconnect]: the handle is closed, and kept. *)
Definition disconnect : M unit :=
  do s <- get;
  match ws s with
  | Some c => log [Closed c; Info "WebSocket disconnected"]
  | None => ret tt
  end.

(** [await self.ws.send(json.dumps(request))] *)
Definition ws_send (w : World) (req : Request) : M unit :=
  do s <- get;
  match ws s with
  | None => raise AttributeError
  | Some c =>
      let n := n_send s in
      call modify (set_counts (n_connect s) (S n) (n_ping s) (n_recv s));
      if send_ok w n then log [Sent c req] else raise WebSocketException
  end.

(** The [for program_id in program_ids] loop of [subscribe_logs]. *)
Fixpoint send_logs_requests (w : World) (id : Z) (program_ids : list string) : M unit :=
  match program_ids with
  | [] => ret tt
  | pid :: rest =>
      call ws_send w (LogsSubscribe id pid);
      call log [Info "Subscribed to logs for program"];
      send_logs_requests w id rest
  end.

(** [subscribe_logs] *)
Definition subscribe_logs (w : World) (program_ids : list string) (callback : Handler)
  : M Z :=
  do s0 <- get;
  call (match ws s0 with None => connect w | Some _ => ret tt end);
  do s <- get;
  let subscription_id := subscription_id_counter s in
  call modify (set_counter (subscription_id + 1));
  call send_logs_requests w subscription_id program_ids;
  call modify (fun s =>
         set_tables (dict_set subscription_id (Logs program_ids callback) (subscriptions s))
                    (dict_set subscription_id callback (callbacks s)) s);
  ret subscription_id.

(** [subscribe_account] *)
Definition subscribe_account (w : World) (account_address : string) (callback : Handler)
  : M Z :=
  do s0 <- get;
  call (match ws s0 with None => connect w | Some _ => ret tt end);
  do s <- get;
  let subscription_id := subscription_id_counter s in
  call modify (set_counter (subscription_id + 1));
  call ws_send w (AccountSubscribe subscription_id account_address);
  call log [Info "Subscribed to account"];
  call modify (fun s =>
         set_tables (dict_set subscription_id (AccountChanges account_address callback)
                              (subscriptions s))
                    (dict_set subscription_id callback (callbacks s)) s);
  ret subscription_id.

(** [unsubscribe] *)
Definition unsubscribe (w : World) (subscription_id : Z) : M unit :=
  do s <- get;
  match dict_get subscription_id (subscriptions s) with
  | None => log [Warning "Subscription not found"]
  | Some subscription =>
      let request := match subscription with
                     | Logs _ _ => LogsUnsubscribe subscription_id
                     | AccountChanges _ _ => AccountUnsubscribe subscription_id
                     end in
      call (match ws s with Some _ => ws_send w request | None => ret tt end);
      do s1 <- get;
      match dict_del subscription_id (subscriptions s1) with
      | None => raise KeyError
      | Some subs =>
          call modify (set_tables subs (callbacks s1));
          match dict_del subscription_id (callbacks s1) with
          | None => raise KeyError
          | Some cbs =>
              call modify (set_tables subs cbs);
              log [Info "Unsubscribed"]
          end
      end
  end.

(** The loop of [_resubscribe_all] over the copied entries. *)
Fixpoint resubscribe_each (w : World) (subscriptions_copy : list (Z * Subscription))
  : M unit :=
  match subscriptions_copy with
  | [] => ret tt
  | (_, Logs program_ids callback) :: rest =>
      do _id <- subscribe_logs w program_ids callback;
      resubscribe_each w rest
  | (_, AccountChanges address callback) :: rest =>
      do _id <- subscribe_account w address callback;
      resubscribe_each w rest
  end.

(** [_resubscribe_all] *)
Definition _resubscribe_all (w : World) : M unit :=
  do s <- get;
  let subscriptions_copy := subscriptions s in
  call modify (set_tables [] []);
  resubscribe_each w subscriptions_copy.

(** [_handle_event]: a handler's exception is caught here. *)
Definition _handle_event (method : string) (subscription : option Z) : M unit :=
  do s <- get;
  if (String.eqb method "logsNotification" || String.eqb method "accountNotification")%bool
  then
    match subscription with
    | None => ret tt
    | Some subscription_id =>
        match dict_get subscription_id (callbacks s) with
        | None => ret tt
        | Some callback =>
            call log [Dispatched (h_name callback)];
            if h_raises callback
            then log [Error "Error handling event"; ErrorMetric "event_handler"]
            else ret tt
        end
    end
  else ret tt.

(** How the [while self.running] loop of [listen] is left, if it is. *)
Inductive LoopEnd :=
| Broke              (* [break]: the reconnection attempts are used up *)
| NotRunning         (* [self.running] was found false *)
| StillListening.    (* the observed prefix of the run ends here *)

(** [await asyncio.wait_for(self.ws.recv(), timeout=30)] and [json.loads] *)
Definition ws_recv (w : World) : M Received :=
  do s <- get;
  match ws s with
  | None => raise AttributeError
  | Some _ =>
      let n := n_recv s in
      call modify (set_counts (n_connect s) (n_send s) (n_ping s) (S n));
      ret (recv w n)
  end.

(** [await self.ws.ping()] *)
Definition ws_ping (w : World) : M unit :=
  do s <- get;
  match ws s with
  | None => ret tt
  | Some c =>
      let n := n_ping s in
      call modify (set_counts (n_connect s) (n_send s) (S n) (n_recv s));
      if ping_ok w n then log [Pinged c] else raise WebSocketException
  end.

(** The [except WebSocketException] branch of [listen]: [true] when the
    loop is to go on, [false] for [break]. *)
Definition on_transport_error (w : World) : M bool :=
  call log [Error "WebSocket error"; ErrorMetric "websocket_error"];
  do s <- get;
  if _reconnect_attempts s <? _max_reconnect_attempts s then
    call modify (set_attempts (_reconnect_attempts s + 1));
    do s1 <- get;
    call log [Info "Reconnecting..."];
    call log [Slept (2 ^ _reconnect_attempts s1)];
    call disconnect;
    call connect w;
    call _resubscribe_all w;
    ret true
  else
    call log [Error "Max reconnection attempts reached"];
    ret false.

(** The [while self.running] loop of [listen], for at most [fuel]
    receives. *)
Fixpoint listen_loop (w : World) (fuel : nat) : M LoopEnd :=
  match fuel with
  | O => ret StillListening
  | S fuel' =>
      do s <- get;
      if negb (running s) then ret NotRunning
      else
        do r <- ws_recv w;
        match r with
        | Confirmation => listen_loop w fuel'
        | Notification method subscription =>
            call _handle_event method subscription;
            listen_loop w fuel'
        | OtherMessage => listen_loop w fuel'
        | Malformed => raise JSONDecodeError
        | Timeout =>
            call ws_ping w;
            listen_loop w fuel'
        | TransportError =>
            do again <- on_transport_error w;
            if again then listen_loop w fuel' else ret Broke
        end
  end.

(** The [finally] clause of [listen] *)
Definition listen_finally : M unit :=
  call modify (set_running false);
  disconnect.

(** [listen] *)
Definition listen (w : World) (fuel : nat) : M LoopEnd :=
  do s0 <- get;
  call (match ws s0 with None => connect w | Some _ => ret tt end);
  call modify (set_running true);
  call log [Info "WebSocket listener started"];
  fun s =>
    match listen_loop w fuel s with
    | (s1, Ok StillListening) => (s1, Ok StillListening)
    | (s1, Ok r) => (fst (listen_finally s1), Ok r)
    | (s1, Raised e) =>
        (fst (listen_finally
                (emit [Error "Fatal error in WebSocket listener";
                       ErrorMetric "websocket_fatal"] s1)),
         Raised e)
    end.

(** [stop] *)
Definition stop : M unit :=
  call modify (set_running false);
  disconnect.

(** The seconds slept between reconnection attempts, in order. *)
Definition sleeps (fx : list Effect) : list Z :=
  List.flat_map (fun f => match f with Slept d => [d] | _ => [] end) fx.

(** The calls of [websockets.connect] that succeeded or failed. *)
Definition connections (fx : list Effect) : list nat :=
  List.flat_map (fun f => match f with Connected c => [c] | _ => [] end) fx.

(** [unsubscribe] in the specification's words: an unknown id changes
    neither table and raises nothing; a registered id is removed from
    both tables. *)
Definition spec_unsubscribe (w : World) (subscription_id : Z) (s : WebSocketManager)
  : Prop :=
  let '(s', r) := unsubscribe w subscription_id s in
  if dict_mem subscription_id (subscriptions s) then
    dict_mem subscription_id (subscriptions s') = false
    /\ dict_mem subscription_id (callbacks s') = false
  else
    r = Ok tt /\ subscriptions s' = subscriptions s /\ callbacks s' = callbacks s.


(** The callback table that goes with a subscription table. *)
Definition callbacks_for (d : list (Z * Subscription)) : list (Z * Handler) :=
  List.map (fun e => (fst e, callback_of (snd e))) d.

(** What a user of the manager may call, one after the other. *)
Inductive Call :=
| CallSubscribeLogs (program_ids : list string) (callback : Handler)
| CallSubscribeAccount (address : string) (callback : Handler)
| CallUnsubscribe (subscription_id : Z)
| CallReconnect.     (* [disconnect], [connect], [_resubscribe_all], as [listen] does *)

(** The calls made in turn, an exception of one not stopping the next;
    the ids the subscribe calls returned, in order. *)
Fixpoint run_calls (w : World) (cs : list Call) (s : WebSocketManager)
  : WebSocketManager * list Z :=
  match cs with
  | [] => (s, [])
  | CallSubscribeLogs pids h :: rest =>
      match subscribe_logs w pids h s with
      | (s1, Ok id) => let '(s2, ids) := run_calls w rest s1 in (s2, id :: ids)
      | (s1, Raised _) => run_calls w rest s1
      end
  | CallSubscribeAccount a h :: rest =>
      match subscribe_account w a h s with
      | (s1, Ok id) => let '(s2, ids) := run_calls w rest s1 in (s2, id :: ids)
      | (s1, Raised _) => run_calls w rest s1
      end
  | CallUnsubscribe id :: rest =>
      run_calls w rest (fst (unsubscribe w id s))
  | CallReconnect :: rest =>
      run_calls w rest
        (fst ((call disconnect; call connect w; _resubscribe_all w) s))
  end.

(** Both tables hold the same ids, all of them issued already. *)
Definition tables_agree (s : WebSocketManager) : Prop :=
  callbacks s = callbacks_for (subscriptions s)
  /\ Forall (fun e => fst e < subscription_id_counter s) (subscriptions s).

(** The socket [c] is up and every send from now on succeeds. *)
Definition live (w : World) (c : nat) (s : WebSocketManager) : Prop :=
  ws s = Some c /\ forall n, (n_send s <= n)%nat -> send_ok w n = true.

(** [s'] differs from [s] by network traffic only. *)
Definition extends (s s' : WebSocketManager) : Prop :=
  ws s' = ws s /\ subscriptions s' = subscriptions s /\ callbacks s' = callbacks s
  /\ subscription_id_counter s' = subscription_id_counter s
  /\ (n_send s <= n_send s')%nat.

(** [connect] would open a socket: a URL is configured and the
    websocket is enabled. *)
Definition configured (s : WebSocketManager) : Prop :=
  PyStr.truthy (wss_url s) = true /\ enable_websocket s = true.

(** From [s] to [s'] the configuration and the waits recorded are the
    same, a socket that was there is still there, a socket is there only
    if it was or the configuration allows one, and the attempt counter is
    what it was or back at 0. *)
Definition keeps (s s' : WebSocketManager) : Prop :=
  wss_url s' = wss_url s
  /\ enable_websocket s' = enable_websocket s
  /\ _max_reconnect_attempts s' = _max_reconnect_attempts s
  /\ sleeps (effects s') = sleeps (effects s)
  /\ (ws s <> None -> ws s' <> None)
  /\ (ws s' <> None -> ws s <> None \/ configured s)
  /\ (_reconnect_attempts s' = _reconnect_attempts s \/ _reconnect_attempts s' = 0).

(** A method keeps all that, however it ends. *)
Definition keeping {A} (c : M A) : Prop := forall s, keeps s (fst (c s)).



(** From [s] to [s'] both tables and the id counter are the same. *)
Definition same_tables (s s' : WebSocketManager) : Prop :=
  subscriptions s' = subscriptions s
  /\ callbacks s' = callbacks s
  /\ subscription_id_counter s' = subscription_id_counter s.

Definition preserving {A} (c : M A) : Prop := forall s, same_tables s (fst (c s)).

(** The two tables go together, every id in them has been issued, and
    the ids are in increasing order (so no id is there twice). *)
Definition tables_sound (s : WebSocketManager) : Prop :=
  tables_agree s /\ StronglySorted Z.lt (List.map fst (subscriptions s)).

(** Sample worlds and states. *)
Definition handler_a : Handler := {| h_name := "on_log"; h_raises := false |}.

(** A network on which everything works. *)
Definition world_fine : World :=
  {| connect_ok := fun _ => true; send_ok := fun _ => true;
     ping_ok := fun _ => true; recv := fun _ => Confirmation |}.

(** The first connection and the first send succeed; then the socket
    breaks: receives and sends fail, and so does reconnecting. *)
Definition world_drop : World :=
  {| connect_ok := fun n => Nat.eqb n 0; send_ok := fun n => Nat.eqb n 0;
     ping_ok := fun _ => false; recv := fun _ => TransportError |}.

(** A manager with a logs and an account subscription, on a network
    that works. *)
Definition subscribed_twice : WebSocketManager :=
  fst (subscribe_account world_fine "So11111111111111111111111111111111111111112"
         handler_a
         (fst (subscribe_logs world_fine
                 ["675kPX9MHTjS2zt1qfr1NYHuzeLXfQM9H24wFSUt1Mp8"%string;
                  "whirLbMiicVdio4qvUfM5KAg6Ct8VwpYzGff3uctyCc"%string]
                 handler_a (init "wss://example" true)))).

(** A manager with one logs subscription, made while the socket worked. *)
Definition subscribed_once : WebSocketManager :=
  fst (subscribe_logs world_drop ["675kPX9MHTjS2zt1qfr1NYHuzeLXfQM9H24wFSUt1Mp8"%string]
         handler_a (init "wss://example" true)).

End WebSocket.

(** ** The configuration read by the core: [src/utils/config.py] *)

Module Config.

(** The fields of [class Config] that the core reads. *)
Record Config := mkConfig {
  quicknode_rpc_url : string;
  quicknode_wss_url : string;
  helius_rpc_url : string;
  primary_rpc_provider : string;      (* validated: "quicknode" or "helius" *)
  enable_websocket : bool
}.

(** [get_rpc_url] *)
Definition get_rpc_url (c : Config) : string :=
  if String.eqb (primary_rpc_provider c) "quicknode" then quicknode_rpc_url c
  else helius_rpc_url c.

(** [get_wss_url] *)
Definition get_wss_url (c : Config) : option string :=
  if String.eqb (primary_rpc_provider c) "quicknode" then Some (quicknode_wss_url c)
  else None.

(** [WebSocketManager()] under this configuration: [connect] reads
    [get_wss_url()] and [enable_websocket]. *)
Definition websocket_manager (c : Config) : WebSocket.WebSocketManager :=
  WebSocket.init (match get_wss_url c with Some url => url | None => EmptyString end)
                 (enable_websocket c).

(** A configuration whose primary provider is helius. *)
Definition helius_first : Config :=
  {| quicknode_rpc_url := "https://quicknode.example";
     quicknode_wss_url := "wss://quicknode.example";
     helius_rpc_url := "https://helius.example";
     primary_rpc_provider := "helius";
     enable_websocket := true |}.

End Config.

(** ** The provider client: [src/core/rpc_client.py] *)

Module Rpc.

Inductive Exn :=
| ClientError                  (* [aiohttp.ClientError]: network failure *)
| TimeoutError                 (* [asyncio.TimeoutError] *)
| OtherException (msg : string)    (* any other [Exception] of the provider *)
| ValueError (msg : string)        (* [Pubkey.from_string] on a bad address *)
| RetryError (last : Exn).         (* tenacity's, when the attempts are used up *)

(** [retry_if_exception_type((aiohttp.ClientError, asyncio.TimeoutError))] *)
Definition retryable (e : Exn) : bool :=
  match e with
  | ClientError | TimeoutError => true
  | _ => false
  end.

(** [stop_after_attempt(3)] *)
Definition max_attempts : nat := 3.
Definition stop_after_attempt (attempt_number : nat) : bool :=
  (max_attempts <=? attempt_number)%nat.

(** tenacity's [wait_exponential(multiplier, min, max)] after attempt
    [attempt_number]:
    [max(max(0, min), min(multiplier * 2 ** (attempt_number - 1), max))] *)
Definition wait_exponential (multiplier min_ max_ : Z) (attempt_number : nat) : Z :=
  Z.max (Z.max 0 min_) (Z.min (multiplier * 2 ^ (Z.of_nat attempt_number - 1)) max_).

(** [wait=wait_exponential(multiplier=1, min=2, max=10)] *)
Definition wait (attempt_number : nat) : Z := wait_exponential 1 2 10 attempt_number.

Inductive Provider := Primary | Backup.

Inductive Res (A : Type) :=
| Ok (a : A)
| Raised (e : Exn).
Arguments Ok {A} a.
Arguments Raised {A} e.

(** What [client._provider.make_request(method, params)] does on the
    [n]-th attempt of a call (from 1). *)
Definition Endpoint : Type := nat -> Res string.

Inductive Effect :=
| Attempted (p : Provider) (attempt_number : nat)
| Slept (secs : Z)
| DurationObserved (p : Provider)
| RequestCounted (p : Provider) (success : bool)
| LogError (msg : string)
| LogInfo (msg : string).

(** The body of [_make_request]: one attempt. *)
Definition _make_request_once (ep : Endpoint) (p : Provider) (attempt_number : nat)
  : Res string * list Effect :=
  match ep attempt_number with
  | Ok response =>
      (Ok response, [Attempted p attempt_number; DurationObserved p; RequestCounted p true])
  | Raised e =>
      (Raised e, [Attempted p attempt_number; DurationObserved p; RequestCounted p false;
                  LogError "RPC request failed"])
  end.

(** The [@retry] loop around it, from attempt [attempt_number], with
    [fuel] bounding the attempts still to make. *)
Fixpoint retry_loop (ep : Endpoint) (p : Provider) (attempt_number fuel : nat)
  : Res string * list Effect :=
  match fuel with
  | O => (Raised (RetryError TimeoutError), [])
  | S fuel' =>
      match _make_request_once ep p attempt_number with
      | (Ok response, fx) => (Ok response, fx)
      | (Raised e, fx) =>
          if negb (retryable e) then (Raised e, fx)
          else if stop_after_attempt attempt_number then (Raised (RetryError e), fx)
          else
            let '(r, fx') := retry_loop ep p (S attempt_number) fuel' in
            (r, fx ++ Slept (wait attempt_number) :: fx')
      end
  end.

(** [_make_request], as decorated *)
Definition _make_request (ep : Endpoint) (p : Provider) : Res string * list Effect :=
  retry_loop ep p 1 max_attempts.

(** [class RPCClient], initialised: the primary endpoint and, when one is
    configured, the backup. *)
Record RPCClient := mkRPCClient {
  primary_client : Endpoint;
  backup_client : option Endpoint
}.

(** [Pubkey.from_string(token_address)] *)
Definition pubkey_from_string (valid : string -> bool) (token_address : string)
  : Res string :=
  if valid token_address then Ok token_address
  else Raised (ValueError "invalid public key").

(** [get_token_supply] *)
Definition get_token_supply (valid : string -> bool) (c : RPCClient)
    (token_address : string) : Res string * list Effect :=
  let attempt_primary :=
    match pubkey_from_string valid token_address with
    | Raised e => (Raised e, [])
    | Ok _ => _make_request (primary_client c) Primary
    end in
  match attempt_primary with
  | (Ok response, fx) => (Ok response, fx)
  | (Raised e, fx) =>
      let fx1 := fx ++ [LogError "Failed to get token supply"] in
      match backup_client c with
      | Some backup =>
          match pubkey_from_string valid token_address with
          | Raised e' => (Raised e', fx1)
          | Ok _ =>
              let '(r, fx') := _make_request backup Backup in (r, fx1 ++ fx')
          end
      | None => (Raised e, fx1)
      end
  end.

(** Observations on a run. *)
Definition attempts (p : Provider) (fx : list Effect) : nat :=
  List.length (List.filter (fun f => match f, p with
                                     | Attempted Primary _, Primary => true
                                     | Attempted Backup _, Backup => true
                                     | _, _ => false
                                     end) fx).

Definition sleeps (fx : list Effect) : list Z :=
  List.flat_map (fun f => match f with Slept d => [d] | _ => [] end) fx.

Definition is_raised {A} (r : Res A) : bool :=
  match r with Raised _ => true | Ok _ => false end.




(** The requests counted by the [rpc_requests] metric with the given
    status, and the seconds slept in all. *)
Definition counted (success : bool) (fx : list Effect) : nat :=
  List.length (List.filter (fun f => match f with
                                     | RequestCounted _ b => Bool.eqb b success
                                     | _ => false
                                     end) fx).

Definition total_wait (fx : list Effect) : Z := List.fold_right Z.add 0 (sleeps fx).

(** Sample clients and endpoints. *)
Definition always (r : Res string) : Endpoint := fun _ => r.

Definition any_address (a : string) : bool := true.


(** The primary times out every time; no backup is configured. *)
Definition client_alone : RPCClient :=
  {| primary_client := always (Raised TimeoutError);
     backup_client := None |}.

(** The primary times out every time; the backup answers. *)
Definition client_failover : RPCClient :=
  {| primary_client := always (Raised TimeoutError);
     backup_client := Some (always (Ok "supply")) |}.

End Rpc.

(** ** Object identity in the pair store *)

(** [discovered_pairs] maps a token address to a [TokenPair] object, and
    [get_active_pairs] builds a new list of those objects.  Here objects
    live in a heap, and the dict and the list hold references to them. *)
Module Aliasing.
Import Monitor.

Record RefMonitor := mkRefMonitor {
  heap : gmap nat TokenPair;             (* the [TokenPair] objects, by identity *)
  pairs : gmap string nat;               (* [self.discovered_pairs] *)
  max_age : Z                            (* [config.max_token_age_minutes] *)
}.

(** [get_active_pairs]: the references the new list holds *)
Definition get_active_pairs (now_ : Z) (st : RefMonitor) : list nat :=
  List.filter
    (fun r => match heap st !! r with
              | Some p => is_eligible now_ (max_age st) p
              | None => false
              end)
    (List.map snd (map_to_list (pairs st))).

Definition with_pool_info (m : gmap string string) (p : TokenPair) : TokenPair :=
  {| token_address := token_address p; pair_address := pair_address p;
     dex := dex p; base_token := base_token p; quote_token := quote_token p;
     created_at := created_at p; signature := signature p; pool_info := m |}.

(** [pair.pool_info[key] = value], through a reference [r] to the pair *)
Definition set_pool_info (r : nat) (key value : string) (st : RefMonitor) : RefMonitor :=
  {| heap := alter (fun p => with_pool_info (<[key := value]> (pool_info p)) p) r (heap st);
     pairs := pairs st;
     max_age := max_age st |}.

(** [self.discovered_pairs[token]], read through the store *)
Definition stored (st : RefMonitor) (token : string) : option TokenPair :=
  match pairs st !! token with
  | Some r => heap st !! r
  | None => None
  end.

(** [del self.discovered_pairs[token]], as the sweep does *)
Definition evict (token : string) (st : RefMonitor) : RefMonitor :=
  {| heap := heap st; pairs := delete token (pairs st); max_age := max_age st |}.

(** The snapshot property in the specification's words: no object of the
    returned list is an object the store holds. *)
Definition spec_no_aliasing (now_ : Z) (st : RefMonitor) : Prop :=
  forall r token, r ∈ get_active_pairs now_ st -> pairs st !! token <> Some r.

(** A store with one pair, created at time 0. *)
Definition sample_pair : TokenPair :=
  {| token_address := "TKN1"; pair_address := "POOL1"; dex := "raydium";
     base_token := "TKN1"; quote_token := "SOL"; created_at := 0;
     signature := "sigA"; pool_info := ∅ |}.

Definition sample_store : RefMonitor :=
  {| heap := {[ 0%nat := sample_pair ]};
     pairs := {[ "TKN1"%string := 0%nat ]};
     max_age := 60 |}.

End Aliasing.

(** ** The observer the application registers: [src/scanner.py] *)

Module Scanner.
Import Monitor.

(** What fetching the metrics, scoring and validating a pair comes to:
    an exception of one of them, or a score that reaches
    [min_moon_score_threshold] or does not. *)
Inductive Assessment :=
| AssessmentRaises (msg : string)
| Assessed (meets_threshold : bool).

Inductive Channel := Telegram | Discord | Webhook.

(** What awaiting a channel's [send_alert] gives to [asyncio.gather]
    with [return_exceptions=True]. *)
Inductive SendResult :=
| SentTrue
| SentFalse
| SendRaised.

Inductive Effect :=
| Processing (token : string)
| AlertSent (ch : Channel) (token : string)
| AlertsLogged (success_count total : nat)
| NoChannelWarning
| TokensAlertedInc (dex : string)
| BelowThreshold (token : string)
| ProcessingError (token : string).

(** The outside world of [_on_new_pair]. *)
Record World := mkWorld {
  assess : TokenPair -> Assessment;
  send : Channel -> TokenPair -> SendResult
}.

(** [class MoonScanner]: the alert switches of its configuration and the
    set of tokens it has processed. *)
Record MoonScanner := mkMoonScanner {
  telegram_enabled : bool;
  discord_enabled : bool;
  webhook_enabled : bool;
  processed_tokens : gset string
}.

Definition set_processed (g : gset string) (s : MoonScanner) : MoonScanner :=
  {| telegram_enabled := telegram_enabled s;
     discord_enabled := discord_enabled s;
     webhook_enabled := webhook_enabled s;
     processed_tokens := g |}.

(** The [tasks] list of [_send_alerts] *)
Definition enabled_channels (s : MoonScanner) : list Channel :=
  (if telegram_enabled s then [Telegram] else [])
    ++ (if discord_enabled s then [Discord] else [])
    ++ (if webhook_enabled s then [Webhook] else []).

(** [_send_alerts] *)
Definition _send_alerts (w : World) (s : MoonScanner) (pair : TokenPair) : list Effect :=
  let tasks := enabled_channels s in
  match tasks with
  | [] => [NoChannelWarning]
  | _ =>
      let results := List.map (fun ch => send w ch pair) tasks in
      let success_count :=
        List.length (List.filter (fun r => match r with SentTrue => true | _ => false end)
                                 results) in
      List.map (fun ch => AlertSent ch (token_address pair)) tasks
        ++ [AlertsLogged success_count (List.length tasks)]
  end.

(** [_on_new_pair] *)
Definition _on_new_pair (w : World) (pair : TokenPair) (s : MoonScanner)
  : MoonScanner * list Effect :=
  if decide (token_address pair ∈ processed_tokens s) then (s, [])
  else
    let s1 := set_processed ({[token_address pair]} ∪ processed_tokens s) s in
    (s1,
     Processing (token_address pair) ::
     match assess w pair with
     | AssessmentRaises msg => [ProcessingError (token_address pair)]
     | Assessed true => _send_alerts w s1 pair ++ [TokensAlertedInc (dex pair)]
     | Assessed false => [BelowThreshold (token_address pair)]
     end).

(** The observer called for one pair after the other. *)
Fixpoint on_new_pairs (w : World) (pairs : list TokenPair) (s : MoonScanner)
  : MoonScanner * list Effect :=
  match pairs with
  | [] => (s, [])
  | p :: rest =>
      let '(s1, fx) := _on_new_pair w p s in
      let '(s2, fx') := on_new_pairs w rest s1 in
      (s2, fx ++ fx')
  end.

(** How many times a token was taken up for processing, and how many
    alerts were sent for it on a channel. *)
Definition times_processed (token : string) (fx : list Effect) : nat :=
  List.length (List.filter (fun f => match f with
                                     | Processing t => String.eqb t token
                                     | _ => false
                                     end) fx).

Definition alerts_sent (ch : Channel) (token : string) (fx : list Effect) : nat :=
  List.length (List.filter (fun f => match f, ch with
                                     | AlertSent Telegram t, Telegram
                                     | AlertSent Discord t, Discord
                                     | AlertSent Webhook t, Webhook => String.eqb t token
                                     | _, _ => false
                                     end) fx).

End Scanner.

(** * Properties *)

(** ** Pair monitor *)

Section MonitorFacts.
Import Monitor.

Lemma handle_new_pair_seen (p : TokenPair) (s : DEXMonitor) :
  seen_signatures (fst (_handle_new_pair p s)) = seen_signatures s.
Proof.
  unfold _handle_new_pair.
  destruct (discovered_pairs s !! token_address p); reflexivity.
Qed.


(** A transaction id that is in the seen set is dropped by both paths. *)
Lemma process_dropped (e : Env) (via : Path) (t : string) (s : DEXMonitor) :
  t ∈ seen_signatures s -> process e via t s = (s, []).
Proof.
  intros Hin. destruct via as [pid|]; simpl.
  - unfold scan_signature. destruct (decide (t ∈ seen_signatures s)); [reflexivity|contradiction].
  - destruct (negb (PyStr.truthy t)); [reflexivity|].
    destruct (decide (t ∈ seen_signatures s)); [reflexivity|contradiction].
Qed.

(** Once processed, a (non-empty) transaction id is in the seen set. *)
Lemma process_marks_seen (e : Env) (via : Path) (t : string) (s : DEXMonitor) :
  t <> EmptyString -> t ∈ seen_signatures (fst (process e via t s)).
Proof.
  intros Hne. destruct via as [pid|]; simpl.
  - unfold scan_signature.
    destruct (decide (t ∈ seen_signatures s)) as [Hin|Hnin]; [exact Hin|].
    destruct (get_transaction e t) as [msg| |tx]; simpl; try set_solver.
    destruct (_parse_transaction _ _ tx pid t) as [found|]; simpl; [|set_solver].
    pose proof (handle_new_pair_seen found
                  (set_seen ({[t]} ∪ seen_signatures s) s)) as Hs.
    destruct (_handle_new_pair found _) as [s2 fx]; simpl in *.
    rewrite Hs. apply elem_of_union_l, elem_of_singleton. reflexivity.
  - destruct t as [|c r]; [congruence|]. simpl.
    destruct (decide (String c r ∈ seen_signatures s)) as [Hin|Hnin]; [exact Hin|].
    destruct (get_transaction e _) as [msg| |tx]; simpl; try set_solver.
    destruct (first_parse _ _ tx _ _) as [found|]; simpl; [|set_solver].
    rewrite handle_new_pair_seen. simpl. set_solver.
Qed.


Lemma invoked_app (a b : list Effect) : invoked (a ++ b) = invoked a ++ invoked b.
Proof. unfold invoked. apply flat_map_app. Qed.

Lemma invoked_notify (p : TokenPair) (cbs : list Callback) :
  invoked (List.flat_map (notify p) cbs) = List.map (fun cb => (cb_name cb, p)) cbs.
Proof.
  induction cbs as [|cb cbs IH]; [reflexivity|].
  simpl. rewrite invoked_app, IH. unfold notify.
  destruct (cb_call cb p); reflexivity.
Qed.

(** Observers are only ever invoked by [_handle_new_pair] for a token
    address the store did not hold, and the pair is stored by then. *)
Lemma handle_new_pair_invoked (p : TokenPair) (s : DEXMonitor) n q :
  (n, q) ∈ invoked (snd (_handle_new_pair p s)) ->
  q = p /\ discovered_pairs s !! token_address p = None
  /\ discovered_pairs (fst (_handle_new_pair p s)) !! token_address p = Some p.
Proof.
  unfold _handle_new_pair.
  destruct (discovered_pairs s !! token_address p) eqn:E; simpl.
  - intros H. inversion H.
  - rewrite invoked_notify. intros H.
    apply list_elem_of_In, in_map_iff in H. destruct H as [cb [Heq _]].
    inversion Heq; subst. repeat split. apply lookup_insert_eq.
Qed.

(** Whatever path processes whatever transaction id, an observer is only
    invoked for a token address the store did not hold before. *)
Lemma process_invoked_fresh (e : Env) (via : Path) (t : string) (s : DEXMonitor) n q :
  (n, q) ∈ invoked (snd (process e via t s)) ->
  discovered_pairs s !! token_address q = None.
Proof.
  destruct via as [pid|]; simpl.
  - unfold scan_signature.
    destruct (decide (t ∈ seen_signatures s)); simpl; [intros H; inversion H|].
    destruct (get_transaction e t) as [msg| |tx]; simpl;
      [intros H; inversion H | intros H; inversion H | ].
    destruct (_parse_transaction _ _ tx pid t) as [found|]; simpl;
      [|intros H; inversion H].
    pose proof (handle_new_pair_invoked found
                  (set_seen ({[t]} ∪ seen_signatures s) s) n q) as Hh.
    destruct (_handle_new_pair found _) as [s2 fx]; simpl in *.
    rewrite app_nil_r. intros H. destruct (Hh H) as [-> [Hnone _]]. exact Hnone.
  - destruct (negb (PyStr.truthy t)); simpl; [intros H; inversion H|].
    destruct (decide (t ∈ seen_signatures s)); simpl; [intros H; inversion H|].
    destruct (get_transaction e t) as [msg| |tx]; simpl;
      [intros H; inversion H | intros H; inversion H | ].
    destruct (first_parse _ _ tx _ _) as [found|]; simpl; [|intros H; inversion H].
    intros H. apply handle_new_pair_invoked in H. destruct H as [-> [Hnone _]].
    exact Hnone.
Qed.

(** C1 (idempotent discovery).  Once a transaction id [t] has been
    processed by either path, processing it again by either path, whatever
    the RPC then answers, leaves the monitor as it is and produces no
    effect at all: no pair is stored and no observer is invoked, because
    [t] is found in the seen set.  A discovery of a token address that the
    store already holds, under whatever signature, is dropped by
    [_handle_new_pair] before any observer call; so no path ever invokes an
    observer for a token address the store held.
    The push path discards an empty id before it touches the seen set, so
    [t] is taken non-empty, as a transaction id is. *)
Theorem idempotent_discovery
    (e1 e2 : Env) (via1 via2 : Path) (t : string) (s : DEXMonitor) :
  t <> EmptyString ->
  process e2 via2 t (fst (process e1 via1 t s)) = (fst (process e1 via1 t s), [])
  /\ (forall (p : TokenPair) (s' : DEXMonitor),
        is_Some (discovered_pairs s' !! token_address p) ->
        _handle_new_pair p s' = (s', []))
  /\ (forall (e3 : Env) (via3 : Path) (t' : string) (s' : DEXMonitor) n q,
        is_Some (discovered_pairs s' !! token_address q) ->
        (n, q) ∉ invoked (snd (process e3 via3 t' s'))).
Proof.
  intros Hne. split; [|split].
  - apply process_dropped, process_marks_seen, Hne.
  - intros p s' [x Hx]. unfold _handle_new_pair. rewrite Hx. reflexivity.
  - intros e3 via3 t' s' n q [x Hx] Hin.
    apply process_invoked_fresh in Hin. congruence.
Qed.

(** *** The store stays keyed by token address *)

Lemma store_keyed_init max_age ws dexs : store_keyed (init max_age ws dexs).
Proof. intros k p H. simpl in H. rewrite lookup_empty in H. discriminate. Qed.

Lemma store_keyed_handle_new_pair (p : TokenPair) (s : DEXMonitor) :
  store_keyed s -> store_keyed (fst (_handle_new_pair p s)).
Proof.
  intros Hk. unfold _handle_new_pair.
  destruct (discovered_pairs s !! token_address p) eqn:E; simpl; [exact Hk|].
  intros k q. simpl. rewrite lookup_insert. case_decide as Hd.
  - intros [= <-]. exact Hd.
  - apply Hk.
Qed.

Lemma store_keyed_set_seen g (s : DEXMonitor) : store_keyed s -> store_keyed (set_seen g s).
Proof. intros Hk. exact Hk. Qed.

Lemma store_keyed_process (e : Env) (via : Path) (t : string) (s : DEXMonitor) :
  store_keyed s -> store_keyed (fst (process e via t s)).
Proof.
  intros Hk. destruct via as [pid|]; simpl.
  - unfold scan_signature.
    destruct (decide (t ∈ seen_signatures s)); simpl; [exact Hk|].
    destruct (get_transaction e t) as [msg| |tx]; simpl; try exact Hk.
    destruct (_parse_transaction _ _ tx pid t) as [found|]; simpl; [|exact Hk].
    pose proof (store_keyed_handle_new_pair found
                  (set_seen ({[t]} ∪ seen_signatures s) s) Hk) as Hh.
    destruct (_handle_new_pair found _) as [s2 fx]; simpl in *. exact Hh.
  - destruct (negb (PyStr.truthy t)); simpl; [exact Hk|].
    destruct (decide (t ∈ seen_signatures s)); simpl; [exact Hk|].
    destruct (get_transaction e t) as [msg| |tx]; simpl; try exact Hk.
    destruct (first_parse _ _ tx _ _) as [found|]; simpl; [|exact Hk].
    apply store_keyed_handle_new_pair. exact Hk.
Qed.

(** *** Lists of map entries *)

Lemma NoDup_map_filter {A B : Type} (g : A -> B) (f : A -> bool) (l : list A) :
  List.NoDup (List.map g l) -> List.NoDup (List.map g (List.filter f l)).
Proof.
  induction l as [|a l IH]; simpl; intros Hnd; [constructor|].
  inversion Hnd as [|? ? Hnotin Hnd']; subst.
  destruct (f a); simpl; [|apply IH; exact Hnd'].
  constructor; [|apply IH; exact Hnd'].
  intros Hin. apply Hnotin.
  apply in_map_iff in Hin. destruct Hin as [x [Hx Hin]].
  apply filter_In in Hin. destruct Hin as [Hin _].
  apply in_map_iff. exists x. split; assumption.
Qed.

Lemma keyed_values_keys (m : gmap string TokenPair) :
  (forall k p, m !! k = Some p -> token_address p = k) ->
  List.map token_address (List.map snd (map_to_list m)) = List.map fst (map_to_list m).
Proof.
  intros Hk. rewrite List.map_map. apply List.map_ext_in.
  intros [k p] Hin. simpl. apply Hk.
  apply elem_of_map_to_list, list_elem_of_In. exact Hin.
Qed.

(** C3 (active pairs).  For every state of the store (kept keyed by token
    address, as every operation of the monitor keeps it) and every
    evaluation time, [get_active_pairs] returns exactly the stored pairs
    whose age is at most the configured maximum: none whose age exceeds it,
    and no two with the same token address. *)
Theorem get_active_pairs_exact (now_ : Z) (s : DEXMonitor) :
  store_keyed s ->
  (forall p : TokenPair,
      p ∈ get_active_pairs now_ s <->
      (exists k, discovered_pairs s !! k = Some p)
      /\ age now_ p <= minutes (max_token_age_minutes s))
  /\ (forall p : TokenPair,
        p ∈ get_active_pairs now_ s ->
        ~ minutes (max_token_age_minutes s) < age now_ p)
  /\ List.NoDup (List.map token_address (get_active_pairs now_ s)).
Proof.
  intros Hk.
  assert (Hmem : forall p : TokenPair,
      p ∈ get_active_pairs now_ s <->
      (exists k, discovered_pairs s !! k = Some p)
      /\ age now_ p <= minutes (max_token_age_minutes s)).
  { intros p. unfold get_active_pairs, is_eligible.
    rewrite list_elem_of_In, filter_In, in_map_iff, Z.leb_le.
    split.
    - intros [[[k q] [Heq Hin]] Hage]. simpl in Heq. subst q.
      split; [|exact Hage]. exists k.
      apply elem_of_map_to_list, list_elem_of_In. exact Hin.
    - intros [[k Hlk] Hage]. split; [|exact Hage].
      exists (k, p). split; [reflexivity|].
      apply list_elem_of_In, elem_of_map_to_list. exact Hlk. }
  split; [exact Hmem|]. split.
  - intros p Hin. apply Hmem in Hin. lia.
  - unfold get_active_pairs. apply NoDup_map_filter.
    rewrite keyed_values_keys by exact Hk.
    apply NoDup_ListNoDup.
    exact (NoDup_fst_map_to_list (discovered_pairs s)).
Qed.

(** *** The cleanup sweep *)

Lemma lookup_fold_delete (ks : list string) (m : gmap string TokenPair) (k : string) :
  List.fold_left (fun m k => delete k m) ks m !! k
  = if decide (k ∈ ks) then None else m !! k.
Proof.
  revert m. induction ks as [|a ks IH]; intros m; simpl.
  - destruct (decide (k ∈ [])) as [H|H]; [inversion H|reflexivity].
  - rewrite IH.
    destruct (decide (k ∈ ks)) as [H1|H1]; destruct (decide (k ∈ a :: ks)) as [H2|H2];
      try reflexivity.
    + exfalso. apply H2. apply elem_of_cons. right. exact H1.
    + apply elem_of_cons in H2. destruct H2 as [->|H2]; [|contradiction].
      apply lookup_delete_eq.
    + apply lookup_delete_ne. intros ->. apply H2. apply elem_of_cons. left. reflexivity.
Qed.

Lemma elem_of_old_pairs (now_ : Z) (s : DEXMonitor) (k : string) :
  k ∈ old_pairs now_ s <->
  exists p, discovered_pairs s !! k = Some p
            /\ created_at p < now_ - minutes (max_token_age_minutes s * 2).
Proof.
  unfold old_pairs. rewrite list_elem_of_In, in_map_iff. split.
  - intros [[k' p] [Heq Hin]]. simpl in Heq. subst k'.
    apply filter_In in Hin. destruct Hin as [Hin Hlt]. simpl in Hlt.
    exists p. split; [|apply Z.ltb_lt; exact Hlt].
    apply elem_of_map_to_list, list_elem_of_In. exact Hin.
  - intros [p [Hlk Hlt]]. exists (k, p). split; [reflexivity|].
    apply filter_In. split; [|apply Z.ltb_lt; exact Hlt].
    apply list_elem_of_In, elem_of_map_to_list. exact Hlk.
Qed.

Lemma age_exceeds_iff_before_cutoff (now_ m : Z) (p : TokenPair) :
  (minutes (2 * m) <? age now_ p) = (created_at p <? now_ - minutes (2 * m)).
Proof.
  unfold age.
  destruct (Z.ltb_spec (minutes (2 * m)) (now_ - created_at p));
    destruct (Z.ltb_spec (created_at p) (now_ - minutes (2 * m)));
    try reflexivity; lia.
Qed.

(** What one pass leaves under a key. *)
Lemma cleanup_pass_lookup (now_ : Z) (s : DEXMonitor) (k : string) :
  discovered_pairs (fst (cleanup_pass now_ s)) !! k
  = match discovered_pairs s !! k with
    | Some p => if created_at p <? now_ - minutes (2 * max_token_age_minutes s)
                then None else Some p
    | None => None
    end.
Proof.
  unfold cleanup_pass. simpl. rewrite lookup_fold_delete.
  destruct (decide (k ∈ old_pairs now_ s)) as [Hin|Hin].
  - apply elem_of_old_pairs in Hin. destruct Hin as [p [Hlk Hlt]].
    replace (max_token_age_minutes s * 2) with (2 * max_token_age_minutes s)
      in Hlt by lia.
    rewrite Hlk. apply Z.ltb_lt in Hlt. rewrite Hlt. reflexivity.
  - destruct (discovered_pairs s !! k) as [p|] eqn:Hlk; [|reflexivity].
    destruct (Z.ltb_spec (created_at p) (now_ - minutes (2 * max_token_age_minutes s)))
      as [Hlt|Hge]; [|reflexivity].
    exfalso. apply Hin. apply elem_of_old_pairs. exists p. split; [exact Hlk|].
    replace (max_token_age_minutes s * 2) with (2 * max_token_age_minutes s) by lia.
    exact Hlt.
Qed.

(** C4 (cleanup sweep).  One pass of the sweep at time [now_] leaves, under
    each key, nothing where the store held nothing, nothing where it held a
    pair whose age exceeds twice the maximum age, and the same pair
    otherwise; and an age exceeds twice the maximum exactly when the pair
    was created strictly before [now_] minus twice the maximum. *)
Theorem cleanup_pass_exact (now_ : Z) (s : DEXMonitor) (k : string) :
  discovered_pairs (fst (cleanup_pass now_ s)) !! k
  = match discovered_pairs s !! k with
    | Some p => if minutes (2 * max_token_age_minutes s) <? age now_ p
                then None else Some p
    | None => None
    end
  /\ (forall p : TokenPair,
        (minutes (2 * max_token_age_minutes s) <? age now_ p)
        = (created_at p <? now_ - minutes (2 * max_token_age_minutes s))).
Proof.
  split; [|intros p; apply age_exceeds_iff_before_cutoff].
  rewrite cleanup_pass_lookup.
  destruct (discovered_pairs s !! k) as [p|]; [|reflexivity].
  rewrite age_exceeds_iff_before_cutoff. reflexivity.
Qed.

Lemma store_keyed_cleanup (now_ : Z) (s : DEXMonitor) :
  store_keyed s -> store_keyed (fst (cleanup_pass now_ s)).
Proof.
  intros Hk k p Hlk. rewrite cleanup_pass_lookup in Hlk.
  destruct (discovered_pairs s !! k) as [q|] eqn:E; [|discriminate].
  destruct (created_at q <? _); [discriminate|].
  injection Hlk as <-. apply Hk. exact E.
Qed.

(** Scenario: with a maximum age of 60 minutes, a pair created 61 minutes
    ago is not active but stays in the store through a sweep; a sweep after
    more than 120 minutes removes it. *)
Example sixty_one_minutes_old :
  let p := mkTokenPair "TKN1" "POOL1" "raydium" "TKN1" "SOL" 0 "sigA" ∅ in
  let s := fst (_handle_new_pair p (init 60 true [ "raydium"%string ])) in
  get_active_pairs (minutes 61) s = []
  /\ discovered_pairs (fst (cleanup_pass (minutes 61) s)) !! "TKN1"%string = Some p
  /\ discovered_pairs (fst (cleanup_pass (minutes 120) s)) !! "TKN1"%string = Some p
  /\ discovered_pairs (fst (cleanup_pass (minutes 120 + 1) s)) !! "TKN1"%string = None.
Proof. vm_compute. repeat split; reflexivity. Qed.


(** C10 (double start).  [start] on a monitor that is running returns the
    monitor unchanged (store, seen set, observers and running flag
    included), creates no task, and only logs a warning. *)
Theorem start_when_running (s : DEXMonitor) :
  running s = true ->
  start s = (s, [], [LogWarning "DEX monitor already running"]).
Proof. intros Hr. unfold start. rewrite Hr. reflexivity. Qed.

(** *** The properties at the sample data *)

(** Scenario: the poll loop meets ["sigA"] in two consecutive cycles; the
    two observers are called once each, the first time. *)
Example poll_twice_notifies_once :
  let first := process sample_env (Polling raydium_id) "sigA" sample_monitor in
  let second := process sample_env (Polling raydium_id) "sigA" (fst first) in
  List.map fst (invoked (snd first)) = [ "on_pair_broken"%string; "on_pair"%string ]
  /\ second = (fst first, []).
Proof.
  split; [vm_compute; reflexivity|].
  apply process_dropped, process_marks_seen. discriminate.
Qed.

(** Scenario: the push path reports a token that the poll path reports
    again under another signature; the second report calls no observer. *)
Example same_token_other_signature :
  let first := process sample_env Push "sigA" sample_monitor in
  let second := process sample_env (Polling raydium_id) "sigB" (fst first) in
  List.length (invoked (snd first)) = 2%nat
  /\ invoked (snd second) = []
  /\ discovered_pairs (fst second) = discovered_pairs (fst first).
Proof. vm_compute. repeat split; reflexivity. Qed.

Lemma idempotent_discovery_witness :
  "sigA"%string <> EmptyString
  /\ process sample_env Push "sigA"
       (fst (process sample_env (Polling raydium_id) "sigA" sample_monitor))
     = (fst (process sample_env (Polling raydium_id) "sigA" sample_monitor), []).
Proof.
  split; [discriminate|].
  apply (idempotent_discovery sample_env sample_env (Polling raydium_id) Push
           "sigA" sample_monitor).
  discriminate.
Defined.

Lemma get_active_pairs_exact_witness :
  List.NoDup
    (List.map token_address
       (get_active_pairs (minutes 1010)
          (fst (process sample_env Push "sigA" sample_monitor)))).
Proof.
  apply (get_active_pairs_exact (minutes 1010)
           (fst (process sample_env Push "sigA" sample_monitor))).
  apply store_keyed_process. unfold sample_monitor, register_callback. simpl.
  intros k p H. simpl in H. rewrite lookup_empty in H. discriminate.
Defined.


Lemma start_when_running_witness :
  running (fst (fst (start sample_monitor))) = true
  /\ start (fst (fst (start sample_monitor)))
     = (fst (fst (start sample_monitor)), [],
        [LogWarning "DEX monitor already running"]).
Proof.
  split; [reflexivity|].
  apply (start_when_running (fst (fst (start sample_monitor)))). reflexivity.
Defined.

End MonitorFacts.

(** ** Provider client *)

Section RpcFacts.
Import Rpc.

Lemma wait_first_two : wait 1 = 2 /\ wait 2 = 2.
Proof. split; reflexivity. Qed.

Lemma wait_bounds (attempt_number : nat) : 2 <= wait attempt_number <= 10.
Proof. unfold wait, wait_exponential. lia. Qed.

Lemma attempts_other (ep : Endpoint) (p q : Provider) :
  p <> q -> attempts q (snd (_make_request ep p)) = 0%nat.
Proof.
  intros Hne. unfold _make_request, max_attempts. simpl.
  unfold _make_request_once.
  destruct (ep 1%nat) as [x|e1]; [destruct p, q; try congruence; reflexivity|].
  destruct (retryable e1); simpl; [|destruct p, q; try congruence; reflexivity].
  destruct (ep 2%nat) as [x|e2]; [destruct p, q; try congruence; reflexivity|].
  destruct (retryable e2); simpl; [|destruct p, q; try congruence; reflexivity].
  destruct (ep 3%nat) as [x|e3]; [destruct p, q; try congruence; reflexivity|].
  destruct (retryable e3); simpl; destruct p, q; try congruence; reflexivity.
Qed.


Lemma attempts_app (p : Provider) (a b : list Effect) :
  attempts p (a ++ b) = (attempts p a + attempts p b)%nat.
Proof. unfold attempts. rewrite List.filter_app, List.length_app. reflexivity. Qed.

Lemma attempts_log (p : Provider) (msg : string) : attempts p [LogError msg] = 0%nat.
Proof. destruct p; reflexivity. Qed.

Lemma sleeps_app (a b : list Effect) : sleeps (a ++ b) = sleeps a ++ sleeps b.
Proof. unfold sleeps. apply flat_map_app. Qed.





(** Scenario: the primary times out three times, the backup answers at
    once: the backup's result is returned after 3 failed and 1 successful
    attempt, with waits of 2 and 2. *)
Example failover_after_three_timeouts :
  let run := get_token_supply any_address client_failover "mint" in
  fst run = Ok "supply"%string
  /\ attempts Primary (snd run) = 3%nat
  /\ attempts Backup (snd run) = 1%nat
  /\ sleeps (snd run) = [2; 2].
Proof. vm_compute. repeat split; reflexivity. Qed.

(** With no backup configured the call raises once the primary alone is
    used up, and what it raises is tenacity's [RetryError]. *)
Example no_backup_raises_retry_error :
  get_token_supply any_address client_alone "mint"
  = (Raised (RetryError TimeoutError),
     snd (get_token_supply any_address client_alone "mint"))
  /\ attempts Backup (snd (get_token_supply any_address client_alone "mint")) = 0%nat.
Proof. vm_compute. split; reflexivity. Qed.


End RpcFacts.

(** ** Subscription manager *)

Section WebSocketFacts.
Import WebSocket.

Lemma dict_get_mem {V} (k : Z) (d : list (Z * V)) (v : V) :
  dict_get k d = Some v -> dict_mem k d = true.
Proof.
  induction d as [|[k' v'] d IH]; simpl; [discriminate|].
  destruct (k' =? k); [reflexivity|]. exact IH.
Qed.

Lemma dict_get_None_mem {V} (k : Z) (d : list (Z * V)) :
  dict_get k d = None -> dict_mem k d = false.
Proof.
  induction d as [|[k' v'] d IH]; simpl; [reflexivity|].
  destruct (k' =? k); [discriminate|]. exact IH.
Qed.

Lemma dict_mem_filter_out {V} (k : Z) (d : list (Z * V)) :
  dict_mem k (List.filter (fun e => negb (fst e =? k)) d) = false.
Proof.
  induction d as [|[k' v'] d IH]; simpl; [reflexivity|].
  destruct (k' =? k) eqn:E; simpl; [exact IH|]. rewrite E. exact IH.
Qed.

(** C8, as the code has it.  [unsubscribe] with an id that is not in the
    subscription table only logs a warning: it raises nothing and leaves
    every field of the manager, both tables included, as it was.  With a
    registered id (present in both tables), when there is no socket or the
    unsubscribe request is sent, the id is removed from both tables and
    every other entry is kept; when sending the request raises, the
    exception propagates and both tables are left as they were. *)
Theorem unsubscribe_as_coded (w : World) (subscription_id : Z) (s : WebSocketManager) :
  (dict_get subscription_id (subscriptions s) = None ->
   unsubscribe w subscription_id s = (emit [Warning "Subscription not found"] s, Ok tt))
  /\ (forall sub,
        dict_get subscription_id (subscriptions s) = Some sub ->
        dict_mem subscription_id (callbacks s) = true ->
        (ws s = None \/ send_ok w (n_send s) = true) ->
        snd (unsubscribe w subscription_id s) = Ok tt
        /\ subscriptions (fst (unsubscribe w subscription_id s))
           = List.filter (fun e => negb (fst e =? subscription_id)) (subscriptions s)
        /\ callbacks (fst (unsubscribe w subscription_id s))
           = List.filter (fun e => negb (fst e =? subscription_id)) (callbacks s)
        /\ dict_mem subscription_id (subscriptions (fst (unsubscribe w subscription_id s)))
           = false
        /\ dict_mem subscription_id (callbacks (fst (unsubscribe w subscription_id s)))
           = false)
  /\ (forall sub c,
        dict_get subscription_id (subscriptions s) = Some sub ->
        ws s = Some c ->
        send_ok w (n_send s) = false ->
        snd (unsubscribe w subscription_id s) = Raised WebSocketException
        /\ subscriptions (fst (unsubscribe w subscription_id s)) = subscriptions s
        /\ callbacks (fst (unsubscribe w subscription_id s)) = callbacks s).
Proof.
  split; [|split].
  - intros Hnone. unfold unsubscribe, bind, get. simpl. rewrite Hnone. reflexivity.
  - intros sub Hsub Hcb Hsend.
    pose proof (dict_get_mem _ _ _ Hsub) as Hmem.
    unfold unsubscribe, bind, get. simpl. rewrite Hsub.
    destruct (ws s) as [c|] eqn:Ews.
    + destruct Hsend as [Hn|Hok]; [discriminate|].
      unfold ws_send, bind, get, modify, log. simpl. rewrite Ews. simpl. rewrite Hok.
      simpl. unfold dict_del. rewrite Hmem, Hcb. simpl.
      rewrite !dict_mem_filter_out. repeat split; reflexivity.
    + unfold ret, modify, log. simpl. unfold dict_del. rewrite Hmem, Hcb. simpl.
      rewrite !dict_mem_filter_out. repeat split; reflexivity.
  - intros sub c Hsub Ews Hfail.
    unfold unsubscribe, bind, get. simpl. rewrite Hsub, Ews.
    unfold ws_send, bind, get, modify, raise. simpl. rewrite Ews. simpl. rewrite Hfail.
    simpl. repeat split; reflexivity.
Qed.

(** C8, as stated, fails: with the socket broken, [unsubscribe] of a
    registered id raises and the registration stays in both tables. *)
Lemma spec_unsubscribe_refuted : ~ spec_unsubscribe world_drop 0 subscribed_once.
Proof. vm_compute. intros [H _]. discriminate. Qed.

(** *** What each method leaves alone *)

Ltac ws_unfold :=
  unfold connect, disconnect, ws_send, ws_recv, ws_ping, log, modify, get, ret, raise,
         bind in *.


Lemma ws_send_counter (w : World) (req : Request) (s : WebSocketManager) :
  subscription_id_counter (fst (ws_send w req s)) = subscription_id_counter s.
Proof.
  ws_unfold. simpl. destruct (ws s); [|reflexivity]. simpl.
  destruct (send_ok w (n_send s)); reflexivity.
Qed.





Lemma unsubscribe_counter (w : World) (id : Z) (s : WebSocketManager) :
  subscription_id_counter (fst (unsubscribe w id s)) = subscription_id_counter s.
Proof.
  unfold unsubscribe. unfold bind at 1, get at 1.
  destruct (dict_get id (subscriptions s)) as [sub|]; [|reflexivity].
  set (request := match sub with
                  | Logs _ _ => LogsUnsubscribe id
                  | AccountChanges _ _ => AccountUnsubscribe id
                  end).
  assert (Htail : forall s1 : WebSocketManager,
             subscription_id_counter s1 = subscription_id_counter s ->
             subscription_id_counter
               (fst ((do s1 <- get;
                      match dict_del id (subscriptions s1) with
                      | None => raise KeyError
                      | Some subs =>
                          call modify (set_tables subs (callbacks s1));
                          match dict_del id (callbacks s1) with
                          | None => raise KeyError
                          | Some cbs =>
                              call modify (set_tables subs cbs);
                              log [Info "Unsubscribed"]
                          end
                      end)%ws s1))
             = subscription_id_counter s).
  { intros s1 Hc. unfold bind at 1, get at 1.
    destruct (dict_del id (subscriptions s1)) as [subs|]; [|exact Hc].
    unfold bind at 1, modify at 1.
    destruct (dict_del id (callbacks s1)) as [cbs|]; [|exact Hc].
    ws_unfold. simpl. exact Hc. }
  unfold bind at 1. destruct (ws s) as [c|].
  - pose proof (ws_send_counter w request s) as Hc.
    destruct (ws_send w request s) as [s1 [[]|e]]; simpl in Hc; [|exact Hc].
    apply Htail. exact Hc.
  - unfold ret at 1. apply Htail. reflexivity.
Qed.




(** *** Subscribing on a working socket *)

Lemma live_extends (w : World) (c : nat) (s s' : WebSocketManager) :
  live w c s -> extends s s' -> live w c s'.
Proof.
  intros [Hws Hok] (Hws' & _ & _ & _ & Hn). split; [congruence|].
  intros n Hle. apply Hok. lia.
Qed.

Lemma ws_send_ok (w : World) (c : nat) (req : Request) (s : WebSocketManager) :
  live w c s ->
  exists s', ws_send w req s = (s', Ok tt) /\ extends s s'.
Proof.
  intros [Hws Hok]. ws_unfold. simpl. rewrite Hws. simpl.
  rewrite (Hok (n_send s)) by lia. simpl.
  eexists. split; [reflexivity|]. unfold extends. simpl.
  repeat split; try assumption; try reflexivity. lia.
Qed.

Lemma extends_trans (a b c : WebSocketManager) :
  extends a b -> extends b c -> extends a c.
Proof.
  intros (H1 & H2 & H3 & H4 & H5) (K1 & K2 & K3 & K4 & K5).
  unfold extends. repeat split; try congruence. lia.
Qed.

Lemma send_logs_requests_ok (w : World) (c : nat) (id : Z) (pids : list string)
    (s : WebSocketManager) :
  live w c s ->
  exists s', send_logs_requests w id pids s = (s', Ok tt) /\ extends s s'.
Proof.
  revert s. induction pids as [|pid pids IH]; intros s Hlive; simpl.
  - exists s. split; [reflexivity|]. unfold extends. repeat split; reflexivity || lia.
  - destruct (ws_send_ok w c (LogsSubscribe id pid) s Hlive) as [s1 [E1 X1]].
    unfold bind at 1. rewrite E1. unfold bind at 1, log at 1, modify at 1.
    set (s2 := emit [Info "Subscribed to logs for program"] s1).
    assert (X2 : extends s s2).
    { eapply extends_trans; [exact X1|]. unfold extends, s2. simpl.
      repeat split; reflexivity || lia. }
    destruct (IH s2 (live_extends _ _ _ _ Hlive X2)) as [s3 [E3 X3]].
    exists s3. split; [exact E3|]. eapply extends_trans; eassumption.
Qed.

Lemma subscribe_logs_ok (w : World) (c : nat) (pids : list string) (h : Handler)
    (s : WebSocketManager) :
  live w c s ->
  exists s',
    subscribe_logs w pids h s = (s', Ok (subscription_id_counter s))
    /\ live w c s'
    /\ subscriptions s'
       = dict_set (subscription_id_counter s) (Logs pids h) (subscriptions s)
    /\ callbacks s' = dict_set (subscription_id_counter s) h (callbacks s)
    /\ subscription_id_counter s' = subscription_id_counter s + 1.
Proof.
  intros Hlive. pose proof Hlive as [Hws Hok].
  unfold subscribe_logs. unfold bind at 1, get at 1. rewrite Hws.
  unfold bind at 1, ret at 1. unfold bind at 1, get at 1.
  unfold bind at 1, modify at 1.
  set (s1 := set_counter (subscription_id_counter s + 1) s).
  assert (L1 : live w c s1) by (split; [exact Hws|exact Hok]).
  destruct (send_logs_requests_ok w c (subscription_id_counter s) pids s1 L1)
    as [s2 [E2 X2]].
  unfold bind at 1. rewrite E2. unfold bind, modify, ret. simpl.
  eexists. split; [reflexivity|].
  destruct X2 as (X1 & X3 & X4 & X5 & X6). simpl in *.
  repeat split; simpl; try congruence.
  intros n Hn. apply Hok. simpl in X6. lia.
Qed.


Lemma dict_set_fresh {V} (k : Z) (v : V) (d : list (Z * V)) :
  Forall (fun e => fst e < k) d -> dict_set k v d = d ++ [(k, v)].
Proof.
  induction d as [|[k' v'] d IH]; intros Hall; simpl; [reflexivity|].
  inversion Hall as [|? ? Hlt Hrest]; subst. simpl in Hlt.
  destruct (Z.eqb_spec k' k); [lia|]. rewrite IH by exact Hrest. reflexivity.
Qed.







(** *** Reconnecting *)

Lemma keeps_refl (s : WebSocketManager) : keeps s s.
Proof. unfold keeps. repeat split; try reflexivity; auto. Qed.

Lemma keeps_trans (a b c : WebSocketManager) : keeps a b -> keeps b c -> keeps a c.
Proof.
  intros (U1 & E1 & M1 & S1 & W1 & V1 & A1) (U2 & E2 & M2 & S2 & W2 & V2 & A2).
  unfold keeps. repeat split; try congruence.
  - auto.
  - intros Hc. destruct (V2 Hc) as [Hb|[Hu He]].
    + apply V1. exact Hb.
    + right. split; congruence.
  - destruct A2 as [A2|A2]; [|right; exact A2].
    destruct A1 as [A1|A1]; [left|right]; congruence.
Qed.

Lemma keeping_ret {A} (a : A) : keeping (ret a).
Proof. intros s. apply keeps_refl. Qed.

Lemma keeping_raise {A} (e : Exn) : keeping (@raise A e).
Proof. intros s. apply keeps_refl. Qed.

Lemma keeping_get : keeping get.
Proof. intros s. apply keeps_refl. Qed.

Lemma keeping_bind {A B} (c : M A) (k : A -> M B) :
  keeping c -> (forall a, keeping (k a)) -> keeping (bind c k).
Proof.
  intros Hc Hk s. unfold bind. specialize (Hc s).
  destruct (c s) as [s1 [a|e]]; simpl in *; [|exact Hc].
  eapply keeps_trans; [exact Hc|apply Hk].
Qed.

Lemma keeping_modify (f : WebSocketManager -> WebSocketManager) :
  (forall s, keeps s (f s)) -> keeping (modify f).
Proof. intros H s. apply H. Qed.

Lemma ws_sleeps_app (a b : list Effect) : sleeps (a ++ b) = sleeps a ++ sleeps b.
Proof. unfold sleeps. apply flat_map_app. Qed.

Lemma keeping_log (fx : list Effect) : sleeps fx = [] -> keeping (log fx).
Proof.
  intros Hfx s. unfold log, modify, keeps. simpl.
  rewrite ws_sleeps_app, Hfx, app_nil_r. repeat split; auto.
Qed.

Lemma keeping_connect (w : World) : keeping (connect w).
Proof.
  intros s. unfold connect. unfold bind at 1, get at 1.
  destruct (negb (PyStr.truthy (wss_url s))) eqn:Eu; [apply keeping_log; reflexivity|].
  destruct (negb (enable_websocket s)) eqn:Ee; [apply keeping_log; reflexivity|].
  assert (Hcfg : configured s).
  { split; [destruct (PyStr.truthy (wss_url s))|destruct (enable_websocket s)];
      simpl in *; congruence. }
  unfold bind, modify, log, raise. simpl.
  destruct (connect_ok w (n_connect s)); unfold keeps; simpl;
    rewrite ?ws_sleeps_app, ?app_nil_r; repeat split; auto.
Qed.

Lemma keeping_disconnect : keeping disconnect.
Proof.
  intros s. unfold disconnect. unfold bind, get.
  destruct (ws s); [apply keeping_log; reflexivity|apply keeping_ret].
Qed.

Lemma keeping_ws_send (w : World) (req : Request) : keeping (ws_send w req).
Proof.
  intros s. unfold ws_send. unfold bind at 1, get at 1.
  destruct (ws s) eqn:Ews; [|apply keeping_raise].
  apply keeping_bind.
  - apply keeping_modify. intros s0. unfold keeps. simpl. repeat split; auto.
  - intros _. destruct (send_ok w (n_send s)); [apply keeping_log; reflexivity|].
    apply keeping_raise.
Qed.

Lemma keeping_send_logs_requests (w : World) (id : Z) (pids : list string) :
  keeping (send_logs_requests w id pids).
Proof.
  induction pids as [|pid pids IH]; simpl; [apply keeping_ret|].
  apply keeping_bind; [apply keeping_ws_send|intros _].
  apply keeping_bind; [apply keeping_log; reflexivity|intros _]. exact IH.
Qed.

Lemma keeping_subscribe_logs (w : World) (pids : list string) (h : Handler) :
  keeping (subscribe_logs w pids h).
Proof.
  unfold subscribe_logs.
  apply keeping_bind; [apply keeping_get|intros s0].
  apply keeping_bind; [destruct (ws s0); [apply keeping_ret|apply keeping_connect]|intros _].
  apply keeping_bind; [apply keeping_get|intros s1].
  apply keeping_bind;
    [apply keeping_modify; intros ?; unfold keeps; simpl; repeat split; auto|intros _].
  apply keeping_bind; [apply keeping_send_logs_requests|intros _].
  apply keeping_bind;
    [apply keeping_modify; intros ?; unfold keeps; simpl; repeat split; auto|intros _].
  apply keeping_ret.
Qed.

Lemma keeping_subscribe_account (w : World) (a : string) (h : Handler) :
  keeping (subscribe_account w a h).
Proof.
  unfold subscribe_account.
  apply keeping_bind; [apply keeping_get|intros s0].
  apply keeping_bind; [destruct (ws s0); [apply keeping_ret|apply keeping_connect]|intros _].
  apply keeping_bind; [apply keeping_get|intros s1].
  apply keeping_bind;
    [apply keeping_modify; intros ?; unfold keeps; simpl; repeat split; auto|intros _].
  apply keeping_bind; [apply keeping_ws_send|intros _].
  apply keeping_bind; [apply keeping_log; reflexivity|intros _].
  apply keeping_bind;
    [apply keeping_modify; intros ?; unfold keeps; simpl; repeat split; auto|intros _].
  apply keeping_ret.
Qed.

Lemma keeping_resubscribe_each (w : World) (l : list (Z * Subscription)) :
  keeping (resubscribe_each w l).
Proof.
  induction l as [|[k [pids h|a h]] l IH]; simpl; [apply keeping_ret| |].
  - apply keeping_bind; [apply keeping_subscribe_logs|intros _; exact IH].
  - apply keeping_bind; [apply keeping_subscribe_account|intros _; exact IH].
Qed.

Lemma keeping_resubscribe_all (w : World) : keeping (_resubscribe_all w).
Proof.
  unfold _resubscribe_all.
  apply keeping_bind; [apply keeping_get|intros s0].
  apply keeping_bind;
    [apply keeping_modify; intros ?; unfold keeps; simpl; repeat split; auto|intros _].
  apply keeping_resubscribe_each.
Qed.













(** C5 at the failing input: the socket drops and the first
    reconnection fails.  [listen] raises at once: one attempt was made,
    after a wait of 2, and none of the attempts 2 to 10 follows. *)
Theorem listen_gives_up_after_one_attempt :
  let run := listen world_drop 20 subscribed_once in
  snd run = Raised ConnectFailed
  /\ sleeps (effects (fst run)) = [2]
  /\ _reconnect_attempts (fst run) = 1
  /\ _max_reconnect_attempts (fst run) = 10
  /\ n_connect (fst run) = 2%nat
  /\ n_recv (fst run) = 1%nat
  /\ running (fst run) = false.
Proof. vm_compute. repeat split; reflexivity. Qed.

(** When every reconnection succeeds and the socket drops again each
    time, the counter is back at 0 after each: every wait is 2, however
    many drops there are, and the loop goes on. *)
Example backoff_does_not_grow :
  let w := {| connect_ok := fun _ => true; send_ok := fun _ => true;
              ping_ok := fun _ => true; recv := fun _ => TransportError |} in
  let run := listen w 12 subscribed_once in
  snd run = Ok StillListening
  /\ sleeps (effects (fst run)) = [2; 2; 2; 2; 2; 2; 2; 2; 2; 2; 2; 2]
  /\ _reconnect_attempts (fst run) = 0.
Proof. vm_compute. repeat split; reflexivity. Qed.


Lemma unsubscribe_as_coded_witness :
  dict_get 7 (subscriptions subscribed_twice) = None
  /\ unsubscribe world_fine 7 subscribed_twice
     = (emit [Warning "Subscription not found"] subscribed_twice, Ok tt).
Proof.
  split; [reflexivity|].
  apply (unsubscribe_as_coded world_fine 7 subscribed_twice). reflexivity.
Defined.

End WebSocketFacts.

(** ** Object identity *)

Section AliasingFacts.
Import Monitor Aliasing.

(** C9, as the code has it.  Every element of the list that
    [get_active_pairs] returns is a reference the store itself holds, to an
    eligible pair; so an assignment to the pool metadata of a returned pair
    is seen by a later read through the store.  The list is the caller's
    own: evicting a token from the store afterwards changes no object the
    list refers to. *)
Theorem get_active_pairs_shares_objects (now_ : Z) (st : RefMonitor) (r : nat) :
  r ∈ get_active_pairs now_ st ->
  exists token p,
    pairs st !! token = Some r
    /\ heap st !! r = Some p
    /\ is_eligible now_ (max_age st) p = true
    /\ (forall key value,
          stored (set_pool_info r key value st) token
          = Some (with_pool_info (<[key := value]> (pool_info p)) p))
    /\ (forall token', heap (evict token' st) !! r = Some p).
Proof.
  unfold get_active_pairs. rewrite list_elem_of_In, filter_In, in_map_iff.
  intros [[[token r'] [Heq Hin]] Helig]. simpl in Heq. subst r'.
  apply list_elem_of_In, elem_of_map_to_list in Hin.
  destruct (heap st !! r) as [p|] eqn:Hp; [|discriminate].
  exists token, p. repeat split; try assumption.
  - intros key value. unfold stored, set_pool_info. simpl. rewrite Hin.
    rewrite lookup_alter_eq, Hp. reflexivity.
  - intros token'. exact Hp.
Qed.

(** C9, as stated, fails: the one element of the list returned for
    [sample_store] is the object the store holds under ["TKN1"]. *)
Lemma spec_no_aliasing_refuted : ~ spec_no_aliasing 0 sample_store.
Proof.
  intros H. apply (H 0%nat "TKN1"%string); [|reflexivity].
  unfold get_active_pairs, sample_store. simpl.
  rewrite map_to_list_singleton. simpl. rewrite lookup_singleton_eq.
  simpl. apply list_elem_of_In. left. reflexivity.
Qed.

Lemma get_active_pairs_shares_objects_witness :
  0%nat ∈ get_active_pairs 0 sample_store
  /\ exists token p,
       pairs sample_store !! token = Some 0%nat
       /\ heap sample_store !! 0%nat = Some p
       /\ stored (set_pool_info 0 "liquidity" "drained" sample_store) token
          = Some (with_pool_info (<["liquidity"%string := "drained"%string]> (pool_info p)) p).
Proof.
  assert (Hin : 0%nat ∈ get_active_pairs 0 sample_store).
  { unfold get_active_pairs, sample_store. simpl.
    rewrite map_to_list_singleton. simpl. rewrite lookup_singleton_eq.
    simpl. apply list_elem_of_In. left. reflexivity. }
  split; [exact Hin|].
  destruct (get_active_pairs_shares_objects 0 sample_store 0%nat Hin)
    as (token & p & Hp & Hh & _ & Hset & _).
  exists token, p. split; [exact Hp|]. split; [exact Hh|]. apply Hset.
Defined.

End AliasingFacts.

(** ** More about the pair monitor *)

Section MonitorMore.
Import Monitor.
#[local] Set Warnings "-clear-no-such-hyp".

Lemma token_mints_of_In (accounts : list Account) (m : string) :
  In m (token_mints_of accounts) ->
  In m (List.flat_map (fun a => match a with
                                | AccountStr k => [k]
                                | AccountDict (Some k) => [k]
                                | _ => []
                                end) (take 10 accounts))
  /\ (30 <? Z.of_nat (String.length m)) = true
  /\ _is_system_account m = false.
Proof.
  unfold token_mints_of. rewrite !in_flat_map.
  intros [a [Ha Hm]].
  assert (Hkeep : forall k,
             In m (if (PyStr.truthy k && (30 <? Z.of_nat (String.length k))
                       && negb (_is_system_account k))%bool then [k] else []) ->
             m = k /\ (30 <? Z.of_nat (String.length m)) = true
             /\ _is_system_account m = false).
  { intros k Hin.
    destruct (PyStr.truthy k); simpl in Hin; [|contradiction].
    destruct (30 <? Z.of_nat (String.length k)) eqn:E1; simpl in Hin; [|contradiction].
    destruct (_is_system_account k) eqn:E2; simpl in Hin; [contradiction|].
    destruct Hin as [<-|[]]. auto. }
  destruct a as [k|[k|]|]; simpl in Hm; try contradiction.
  - destruct (Hkeep k Hm) as (-> & H1 & H2). split; [|auto].
    exists (AccountStr k). split; [exact Ha|left; reflexivity].
  - destruct (Hkeep k Hm) as (-> & H1 & H2). split; [|auto].
    exists (AccountDict (Some k)). split; [exact Ha|left; reflexivity].
Qed.

(** What [_extract_pair_info] returns, when it returns a pair. *)
Lemma extract_pair_info_Some (tx_data : TxData) (pid sig : string) (created : Z)
    (p : TokenPair) :
  _extract_pair_info tx_data pid sig created = Some p ->
  (3 <= List.length (accountKeys tx_data))%nat
  /\ (exists rest, token_mints_of (accountKeys tx_data)
                   = token_address p :: quote_token p :: rest)
  /\ base_token p = token_address p
  /\ dex p = _get_dex_name pid
  /\ created_at p = created
  /\ signature p = sig
  /\ pool_info p = ∅.
Proof.
  unfold _extract_pair_info.
  destruct (Z.ltb_spec (Z.of_nat (List.length (accountKeys tx_data))) 3) as [Hlt|Hge];
    [discriminate|].
  destruct (token_mints_of (accountKeys tx_data)) as [|m0 [|m1 rest]]; try discriminate.
  destruct (accountKeys tx_data) as [|a0 accs]; [discriminate|].
  destruct a0 as [k|[k|]|]; try discriminate;
    intros [= <-]; simpl; (split; [simpl in Hge; lia|]);
    (split; [exists rest; reflexivity|]); repeat split; reflexivity.
Qed.

(** X1.  [_parse_transaction] yields a pair only for a transaction that
    succeeded, that is not older than the maximum age, that has at least
    three account keys and that has an instruction of the very program
    scanned whose type contains "initialize" or "create", in any case of
    letters. *)
Theorem parse_transaction_accepts_only
    (e : Env) (s : DEXMonitor) (tx : option TxData) (pid sig : string) (p : TokenPair) :
  _parse_transaction e s tx pid sig = Some p ->
  exists tx_data,
    tx = Some tx_data
    /\ meta_err tx_data = false
    /\ age (now e) p <= minutes (max_token_age_minutes s)
    /\ (3 <= List.length (accountKeys tx_data))%nat
    /\ exists i, In i (instructions tx_data)
                 /\ programId i = pid
                 /\ (PyStr.contains "initialize" (PyStr.lower (parsed_type i))
                     || PyStr.contains "create" (PyStr.lower (parsed_type i)))%bool = true.
Proof.
  unfold _parse_transaction. destruct tx as [tx_data|]; [|discriminate].
  destruct (meta_err tx_data) eqn:Em; [discriminate|].
  set (created := match blockTime tx_data with
                  | Some bt => if bt =? 0 then now e else seconds bt
                  | None => now e
                  end).
  destruct (Z.ltb_spec (minutes (max_token_age_minutes s)) (now e - created))
    as [Hold|Hyoung]; [discriminate|].
  destruct (List.find _ (instructions tx_data)) as [i|] eqn:Ef; [|discriminate].
  intros Hx. destruct (extract_pair_info_Some _ _ _ _ _ Hx) as (H3 & _ & _ & _ & Hc & _).
  exists tx_data. split; [reflexivity|]. split; [exact Em|].
  split; [unfold age; rewrite Hc; exact Hyoung|]. split; [exact H3|].
  apply find_some in Ef. destruct Ef as [Hin Hi]. exists i. split; [exact Hin|].
  unfold _is_pool_creation_instruction in Hi.
  destruct (String.eqb_spec (programId i) pid) as [Heq|Hne]; simpl in Hi; [|discriminate].
  split; [exact Heq|]. rewrite orb_false_r in Hi. exact Hi.
Qed.

(** X2.  A pair that [_parse_transaction] yields carries the signature
    and the DEX of the scan, has empty pool metadata and its token as base
    token; its token and quote token are two of the first ten account keys
    of the transaction, longer than 30 characters, and none of the three
    system accounts. *)
Theorem parse_transaction_pair_shape
    (e : Env) (s : DEXMonitor) (tx_data : TxData) (pid sig : string) (p : TokenPair) :
  _parse_transaction e s (Some tx_data) pid sig = Some p ->
  signature p = sig
  /\ dex p = _get_dex_name pid
  /\ pool_info p = ∅
  /\ base_token p = token_address p
  /\ In (token_address p) (candidate_keys tx_data)
  /\ In (quote_token p) (candidate_keys tx_data)
  /\ (30 < String.length (token_address p))%nat
  /\ (30 < String.length (quote_token p))%nat
  /\ _is_system_account (token_address p) = false
  /\ _is_system_account (quote_token p) = false.
Proof.
  unfold _parse_transaction.
  destruct (meta_err tx_data); [discriminate|].
  destruct (_ <? _); [discriminate|].
  destruct (List.find _ (instructions tx_data)) as [i|]; [|discriminate].
  intros Hx.
  destruct (extract_pair_info_Some _ _ _ _ _ Hx)
    as (_ & [rest Hm] & Hb & Hd & _ & Hs & Hp).
  assert (H0 : In (token_address p) (token_mints_of (accountKeys tx_data)))
    by (rewrite Hm; left; reflexivity).
  assert (H1 : In (quote_token p) (token_mints_of (accountKeys tx_data)))
    by (rewrite Hm; right; left; reflexivity).
  apply token_mints_of_In in H0. apply token_mints_of_In in H1.
  destruct H0 as (I0 & L0 & S0). destruct H1 as (I1 & L1 & S1).
  apply Z.ltb_lt in L0. apply Z.ltb_lt in L1.
  repeat split; try assumption; lia.
Qed.

(** X3.  Every program id the monitor scans belongs to a DEX that is
    configured: [_get_dex_name] maps it back to one of the configured names,
    which is raydium, orca or jupiter. *)
Theorem program_ids_name_their_dex (s : DEXMonitor) (pid : string) :
  In pid (_get_program_ids s) ->
  In (_get_dex_name pid) (monitored_dexs s)
  /\ In (_get_dex_name pid) [ "raydium"%string; "orca"%string; "jupiter"%string ].
Proof.
  unfold _get_program_ids. rewrite in_flat_map. intros [d [Hd Hpid]].
  destruct (String.eqb_spec d "raydium") as [->|_].
  { destruct Hpid as [<-|[<-|[]]]; (split; [exact Hd|left; reflexivity]). }
  destruct (String.eqb_spec d "orca") as [->|_].
  { destruct Hpid as [<-|[<-|[]]]; (split; [exact Hd|right; left; reflexivity]). }
  destruct (String.eqb_spec d "jupiter") as [->|_]; [|destruct Hpid].
  destruct Hpid as [<-|[]]. split; [exact Hd|right; right; left; reflexivity].
Qed.

(** *** Nothing is forgotten *)

Lemma grows_refl (s : DEXMonitor) : grows s s.
Proof. unfold grows. repeat split; auto. Qed.

Lemma grows_trans (a b c : DEXMonitor) : grows a b -> grows b c -> grows a c.
Proof.
  intros (S1 & P1 & C1 & R1 & M1 & W1 & D1) (S2 & P2 & C2 & R2 & M2 & W2 & D2).
  unfold grows. repeat split; try congruence.
  - set_solver.
  - intros k p H. apply P2, P1, H.
Qed.

Lemma grows_set_seen (t : string) (s : DEXMonitor) :
  grows s (set_seen ({[t]} ∪ seen_signatures s) s).
Proof. unfold grows. simpl. repeat split; auto. set_solver. Qed.

Lemma grows_handle_new_pair (p : TokenPair) (s : DEXMonitor) :
  grows s (fst (_handle_new_pair p s)).
Proof.
  unfold _handle_new_pair.
  destruct (discovered_pairs s !! token_address p) eqn:E; simpl; [apply grows_refl|].
  unfold grows. simpl. repeat split; auto.
  intros k q Hk. rewrite lookup_insert_ne; [exact Hk|]. intros <-. congruence.
Qed.

Lemma grows_scan_signature (e : Env) (pid t : string) (s : DEXMonitor) :
  grows s (fst (fst (scan_signature e pid t s))).
Proof.
  unfold scan_signature.
  destruct (decide (t ∈ seen_signatures s)); [apply grows_refl|].
  destruct (get_transaction e t) as [msg| |tx]; simpl; try apply grows_set_seen.
  destruct (_parse_transaction _ _ tx pid t) as [found|]; simpl; [|apply grows_set_seen].
  pose proof (grows_handle_new_pair found (set_seen ({[t]} ∪ seen_signatures s) s)) as H.
  destruct (_handle_new_pair found _) as [s2 fx]. simpl in *.
  eapply grows_trans; [apply grows_set_seen|exact H].
Qed.

Lemma grows_scan_signatures (e : Env) (pid : string) (sigs : list string) (s : DEXMonitor) :
  grows s (fst (scan_signatures e pid sigs s)).
Proof.
  revert s. induction sigs as [|t sigs IH]; intros s; simpl; [apply grows_refl|].
  pose proof (grows_scan_signature e pid t s) as H1.
  destruct (scan_signature e pid t s) as [[s1 fx] [|msg]]; simpl in *; [|exact H1].
  specialize (IH s1). destruct (scan_signatures e pid sigs s1) as [s2 fx']. simpl in *.
  eapply grows_trans; eassumption.
Qed.

Lemma grows_scan_program (e : Env) (pid : string) (s : DEXMonitor) :
  grows s (fst (_scan_program e pid s)).
Proof.
  unfold _scan_program.
  destruct (get_signatures_for_address e pid); [apply grows_refl|].
  apply grows_scan_signatures.
Qed.

Lemma grows_scan_programs (e : Env) (pids : list string) (s : DEXMonitor) :
  grows s (fst (scan_programs e pids s)).
Proof.
  revert s. induction pids as [|pid pids IH]; intros s; simpl; [apply grows_refl|].
  pose proof (grows_scan_program e pid s) as H1.
  destruct (_scan_program e pid s) as [s1 fx]. simpl in *.
  specialize (IH s1). destruct (scan_programs e pids s1) as [s2 fx']. simpl in *.
  eapply grows_trans; eassumption.
Qed.

Lemma grows_handle_log_event (e : Env) (sig : option string) (s : DEXMonitor) :
  grows s (fst (_handle_log_event e sig s)).
Proof.
  unfold _handle_log_event. destruct sig as [sg|]; [|apply grows_refl].
  destruct (negb (PyStr.truthy sg)); [apply grows_refl|].
  destruct (decide (sg ∈ seen_signatures s)); [apply grows_refl|].
  destruct (get_transaction e sg) as [msg| |tx]; simpl; try apply grows_set_seen.
  destruct (first_parse _ _ tx sg _) as [found|]; simpl; [|apply grows_set_seen].
  eapply grows_trans; [apply grows_set_seen|apply grows_handle_new_pair].
Qed.

(** X4.  Nothing but the sweep forgets: a pass of the polling loop or a
    log event leaves every signature seen before in the seen set and every
    stored pair in the store, unchanged (a later discovery of the same token
    address never replaces the first), and changes neither the observers
    nor the running flag nor the configuration. *)
Theorem discovery_only_grows (e : Env) (sig : option string) (s : DEXMonitor) :
  grows s (fst (_scan_dexs e s)) /\ grows s (fst (_handle_log_event e sig s)).
Proof.
  split; [apply grows_scan_programs|apply grows_handle_log_event].
Qed.

(** *** The store stays sound *)

Lemma parse_transaction_signature (e : Env) (s : DEXMonitor) (tx : option TxData)
    (pid sig : string) (p : TokenPair) :
  _parse_transaction e s tx pid sig = Some p -> signature p = sig.
Proof.
  unfold _parse_transaction. destruct tx as [tx_data|]; [|discriminate].
  destruct (meta_err tx_data); [discriminate|].
  destruct (_ <? _); [discriminate|].
  destruct (List.find _ (instructions tx_data)); [|discriminate].
  intros Hx. apply extract_pair_info_Some in Hx. tauto.
Qed.

Lemma first_parse_signature (e : Env) (s : DEXMonitor) (tx : option TxData)
    (sig : string) (pids : list string) (p : TokenPair) :
  first_parse e s tx sig pids = Some p -> signature p = sig.
Proof.
  induction pids as [|pid pids IH]; simpl; [discriminate|].
  destruct (_parse_transaction e s tx pid sig) as [found|] eqn:E; [|exact IH].
  intros [= <-]. eapply parse_transaction_signature. exact E.
Qed.

Lemma store_sound_grows_seen (g : gset string) (s : DEXMonitor) :
  seen_signatures s ⊆ g -> store_sound s -> store_sound (set_seen g s).
Proof.
  intros Hsub Hs k p Hk. destruct (Hs k p Hk) as [H1 H2]. split; [exact H1|].
  simpl. set_solver.
Qed.

Lemma store_sound_handle_new_pair (p : TokenPair) (s : DEXMonitor) :
  signature p ∈ seen_signatures s -> store_sound s ->
  store_sound (fst (_handle_new_pair p s)).
Proof.
  intros Hsig Hs. unfold _handle_new_pair.
  destruct (discovered_pairs s !! token_address p) eqn:E; simpl; [exact Hs|].
  intros k q. simpl. rewrite lookup_insert. case_decide as Hd.
  - intros [= <-]. split; [exact Hd|exact Hsig].
  - apply Hs.
Qed.

Lemma store_sound_scan_signature (e : Env) (pid t : string) (s : DEXMonitor) :
  store_sound s -> store_sound (fst (fst (scan_signature e pid t s))).
Proof.
  intros Hs. unfold scan_signature.
  destruct (decide (t ∈ seen_signatures s)); [exact Hs|].
  assert (Hs1 : store_sound (set_seen ({[t]} ∪ seen_signatures s) s))
    by (apply store_sound_grows_seen; [set_solver|exact Hs]).
  destruct (get_transaction e t) as [msg| |tx]; simpl; try exact Hs1.
  destruct (_parse_transaction _ _ tx pid t) as [found|] eqn:E; simpl; [|exact Hs1].
  apply parse_transaction_signature in E.
  pose proof (store_sound_handle_new_pair found
                (set_seen ({[t]} ∪ seen_signatures s) s)) as H.
  destruct (_handle_new_pair found _) as [s2 fx]. simpl in *.
  apply H; [|exact Hs1]. rewrite E. set_solver.
Qed.

Lemma store_sound_scan_signatures (e : Env) (pid : string) (sigs : list string)
    (s : DEXMonitor) :
  store_sound s -> store_sound (fst (scan_signatures e pid sigs s)).
Proof.
  revert s. induction sigs as [|t sigs IH]; intros s Hs; simpl; [exact Hs|].
  pose proof (store_sound_scan_signature e pid t s Hs) as H1.
  destruct (scan_signature e pid t s) as [[s1 fx] [|msg]]; simpl in *; [|exact H1].
  specialize (IH s1 H1). destruct (scan_signatures e pid sigs s1) as [s2 fx']. exact IH.
Qed.

Lemma store_sound_scan_programs (e : Env) (pids : list string) (s : DEXMonitor) :
  store_sound s -> store_sound (fst (scan_programs e pids s)).
Proof.
  revert s. induction pids as [|pid pids IH]; intros s Hs; simpl; [exact Hs|].
  assert (H1 : store_sound (fst (_scan_program e pid s))).
  { unfold _scan_program. destruct (get_signatures_for_address e pid); [exact Hs|].
    apply store_sound_scan_signatures. exact Hs. }
  destruct (_scan_program e pid s) as [s1 fx]. simpl in *.
  specialize (IH s1 H1). destruct (scan_programs e pids s1) as [s2 fx']. exact IH.
Qed.

Lemma store_sound_handle_log_event (e : Env) (sig : option string) (s : DEXMonitor) :
  store_sound s -> store_sound (fst (_handle_log_event e sig s)).
Proof.
  intros Hs. unfold _handle_log_event. destruct sig as [sg|]; [|exact Hs].
  destruct (negb (PyStr.truthy sg)); [exact Hs|].
  destruct (decide (sg ∈ seen_signatures s)); [exact Hs|].
  assert (Hs1 : store_sound (set_seen ({[sg]} ∪ seen_signatures s) s))
    by (apply store_sound_grows_seen; [set_solver|exact Hs]).
  destruct (get_transaction e sg) as [msg| |tx]; simpl; try exact Hs1.
  destruct (first_parse _ _ tx sg _) as [found|] eqn:E; simpl; [|exact Hs1].
  apply first_parse_signature in E.
  apply store_sound_handle_new_pair; [|exact Hs1]. rewrite E. simpl. set_solver.
Qed.

Lemma store_sound_cleanup (now_ : Z) (s : DEXMonitor) :
  store_sound s -> store_sound (fst (cleanup_pass now_ s)).
Proof.
  intros Hs k p Hlk. rewrite cleanup_pass_lookup in Hlk.
  destruct (discovered_pairs s !! k) as [q|] eqn:E; [|discriminate].
  destruct (created_at q <? _); [discriminate|].
  injection Hlk as <-. apply Hs. exact E.
Qed.

Lemma store_sound_step (st : Step) (s : DEXMonitor) :
  store_sound s -> store_sound (fst (step st s)).
Proof.
  intros Hs. destruct st as [e|e sig|now_|cb| |]; simpl.
  - apply store_sound_scan_programs. exact Hs.
  - apply store_sound_handle_log_event. exact Hs.
  - apply store_sound_cleanup. exact Hs.
  - exact Hs.
  - unfold start. destruct (running s); exact Hs.
  - exact Hs.
Qed.

(** X5.  Whatever happens to a monitor from its creation on (polling
    passes, log events, sweeps, registrations, starts and stops, in any
    order and with any answers of the RPC), every pair in its store is
    filed under its own token address, so there is one pair per token
    address, and carries a signature that is in the seen set. *)
Theorem store_always_sound (sts : list Step) (max_age : Z) (ws : bool)
    (dexs : list string) :
  store_sound (fst (steps sts (init max_age ws dexs))).
Proof.
  assert (H : forall s, store_sound s -> store_sound (fst (steps sts s))).
  { induction sts as [|st sts IH]; intros s Hs; simpl; [exact Hs|].
    pose proof (store_sound_step st s Hs) as H1.
    destruct (step st s) as [s1 fx]. simpl in *.
    specialize (IH s1 H1). destruct (steps sts s1) as [s2 fx']. exact IH. }
  apply H. intros k p Hk. simpl in Hk. rewrite lookup_empty in Hk. discriminate.
Qed.

(** *** A pass over the signatures of a program *)

Lemma scan_signature_seen_sub (e : Env) (pid t : string) (s : DEXMonitor) :
  seen_signatures (fst (fst (scan_signature e pid t s))) ⊆ {[t]} ∪ seen_signatures s.
Proof.
  unfold scan_signature.
  destruct (decide (t ∈ seen_signatures s)); [set_solver|].
  destruct (get_transaction e t) as [msg| |tx]; simpl; try set_solver.
  destruct (_parse_transaction _ _ tx pid t) as [found|]; simpl; [|set_solver].
  pose proof (handle_new_pair_seen found (set_seen ({[t]} ∪ seen_signatures s) s)) as H.
  destruct (_handle_new_pair found _) as [s2 fx]. simpl in *. rewrite H. set_solver.
Qed.

Lemma scan_signature_marks (e : Env) (pid t : string) (s : DEXMonitor) :
  t ∈ seen_signatures (fst (fst (scan_signature e pid t s))).
Proof.
  unfold scan_signature.
  destruct (decide (t ∈ seen_signatures s)) as [Hin|Hnin]; [exact Hin|].
  destruct (get_transaction e t) as [msg| |tx]; simpl; try set_solver.
  destruct (_parse_transaction _ _ tx pid t) as [found|]; simpl; [|set_solver].
  pose proof (handle_new_pair_seen found (set_seen ({[t]} ∪ seen_signatures s) s)) as H.
  destruct (_handle_new_pair found _) as [s2 fx]. simpl in *. rewrite H.
  apply elem_of_union_l, elem_of_singleton. reflexivity.
Qed.

Lemma scan_signature_flow (e : Env) (pid t : string) (s : DEXMonitor) (msg : string) :
  snd (scan_signature e pid t s) = Raise msg ->
  get_transaction e t = TxRaises msg /\ t ∉ seen_signatures s.
Proof.
  unfold scan_signature.
  destruct (decide (t ∈ seen_signatures s)); [discriminate|].
  destruct (get_transaction e t) as [msg'| |tx]; simpl; try discriminate.
  - intros [= ->]. split; [reflexivity|assumption].
  - destruct (_parse_transaction _ _ tx pid t) as [found|]; [|discriminate].
    destruct (_handle_new_pair found _). discriminate.
Qed.

Lemma scan_signatures_seen_sub (e : Env) (pid : string) (sigs : list string)
    (s : DEXMonitor) :
  seen_signatures (fst (scan_signatures e pid sigs s))
  ⊆ list_to_set sigs ∪ seen_signatures s.
Proof.
  revert s. induction sigs as [|t sigs IH]; intros s; simpl; [set_solver|].
  pose proof (scan_signature_seen_sub e pid t s) as H1.
  destruct (scan_signature e pid t s) as [[s1 fx] [|msg]]; simpl in *; [|set_solver].
  specialize (IH s1). destruct (scan_signatures e pid sigs s1) as [s2 fx']. simpl in *.
  set_solver.
Qed.

(** X6.  A pass over the signatures of a program marks nothing but listed
    signatures as seen; and when no fetch of a transaction raises, it
    leaves exactly the signatures seen before and the listed ones in the
    seen set. *)
Theorem scan_marks_listed_signatures
    (e : Env) (pid : string) (sigs : list string) (s : DEXMonitor) :
  seen_signatures (fst (scan_signatures e pid sigs s))
  ⊆ list_to_set sigs ∪ seen_signatures s
  /\ ((forall t msg, In t sigs -> get_transaction e t <> TxRaises msg) ->
      seen_signatures (fst (scan_signatures e pid sigs s))
      = list_to_set sigs ∪ seen_signatures s).
Proof.
  split; [apply scan_signatures_seen_sub|].
  revert s. induction sigs as [|t sigs IH]; intros s Hok; simpl; [set_solver|].
  pose proof (scan_signature_marks e pid t s) as Hm.
  pose proof (scan_signature_seen_sub e pid t s) as Hsub.
  pose proof (grows_scan_signature e pid t s) as (Hg & _).
  pose proof (scan_signature_flow e pid t s) as Hf.
  destruct (scan_signature e pid t s) as [[s1 fx] [|msg]]; simpl in *.
  - assert (IH' := IH s1 (fun t' msg H => Hok t' msg (or_intror H))).
    destruct (scan_signatures e pid sigs s1) as [s2 fx']. simpl in *.
    rewrite IH'. set_solver.
  - destruct (Hf msg eq_refl) as [Hr _]. exfalso.
    apply (Hok t msg); [left; reflexivity|exact Hr].
Qed.

Lemma scan_signatures_cut (e : Env) (pid : string) (pre rest : list string)
    (t msg : string) (s : DEXMonitor) :
  get_transaction e t = TxRaises msg ->
  t ∉ seen_signatures s ->
  ~ In t pre ->
  scan_signatures e pid (pre ++ t :: rest) s = scan_signatures e pid (pre ++ [t]) s.
Proof.
  intros Hraise. revert s. induction pre as [|a pre IH]; intros s Hnew Hnotin; simpl.
  - unfold scan_signature.
    destruct (decide (t ∈ seen_signatures s)); [contradiction|].
    rewrite Hraise. reflexivity.
  - pose proof (scan_signature_seen_sub e pid a s) as Hsub.
    destruct (scan_signature e pid a s) as [[s1 fx] [|msg']]; simpl in *; [|reflexivity].
    assert (Hnew1 : t ∉ seen_signatures s1).
    { intros Hin. apply Hsub in Hin. apply elem_of_union in Hin.
      destruct Hin as [Hin|Hin]; [|contradiction].
      apply elem_of_singleton in Hin. apply Hnotin. left. congruence. }
    rewrite (IH s1 Hnew1 (fun H => Hnotin (or_intror H))). reflexivity.
Qed.

(** X7.  When fetching the transaction of a signature [t] raises, the
    pass over the program ends there: it does what it would do were [t]
    the last signature listed, so the signatures listed after [t] are not
    examined and not marked as seen in this pass; [t] itself is marked as
    seen (when no earlier fetch of the pass raised). *)
Theorem scan_stops_at_failed_fetch
    (e : Env) (pid : string) (pre rest : list string) (t msg : string) (s : DEXMonitor) :
  get_transaction e t = TxRaises msg ->
  t ∉ seen_signatures s ->
  ~ In t pre ->
  scan_signatures e pid (pre ++ t :: rest) s = scan_signatures e pid (pre ++ [t]) s
  /\ seen_signatures (fst (scan_signatures e pid (pre ++ t :: rest) s))
     ⊆ list_to_set (pre ++ [t]) ∪ seen_signatures s
  /\ ((forall a m, In a pre -> get_transaction e a <> TxRaises m) ->
      t ∈ seen_signatures (fst (scan_signatures e pid (pre ++ t :: rest) s))).
Proof.
  intros Hraise Hnew Hnotin.
  rewrite (scan_signatures_cut e pid pre rest t msg s Hraise Hnew Hnotin).
  split; [reflexivity|]. split; [apply scan_signatures_seen_sub|].
  clear Hnew Hnotin. revert s. induction pre as [|a pre IH]; intros s Hok; simpl.
  - pose proof (scan_signature_marks e pid t s) as Hm.
    destruct (scan_signature e pid t s) as [[s1 fx] [|m]]; simpl in *; exact Hm.
  - pose proof (scan_signature_flow e pid a s) as Hf.
    destruct (scan_signature e pid a s) as [[s1 fx] [|m]]; simpl in *.
    + specialize (IH s1 (fun a' m' H => Hok a' m' (or_intror H))).
      destruct (scan_signatures e pid (pre ++ [t]) s1) as [s2 fx']. exact IH.
    + destruct (Hf m eq_refl) as [Hr _]. exfalso.
      apply (Hok a m); [left; reflexivity|exact Hr].
Qed.

(** *** The sweep and the active pairs *)

Lemma elem_of_get_active_pairs (now_ : Z) (s : DEXMonitor) (p : TokenPair) :
  p ∈ get_active_pairs now_ s <->
  (exists k, discovered_pairs s !! k = Some p)
  /\ age now_ p <= minutes (max_token_age_minutes s).
Proof.
  unfold get_active_pairs, is_eligible.
  rewrite list_elem_of_In, filter_In, in_map_iff, Z.leb_le. split.
  - intros [[[k q] [Heq Hin]] Hage]. simpl in Heq. subst q.
    split; [|exact Hage]. exists k.
    apply elem_of_map_to_list, list_elem_of_In. exact Hin.
  - intros [[k Hlk] Hage]. split; [|exact Hage].
    exists (k, p). split; [reflexivity|].
    apply list_elem_of_In, elem_of_map_to_list. exact Hlk.
Qed.

(** X8.  The sweep never evicts a pair that is still active: with a
    non-negative maximum age, the pairs that are active at some time are the
    same before and after a sweep made at that time or earlier. *)
Theorem sweep_keeps_active_pairs (sweep_time now_ : Z) (s : DEXMonitor) (p : TokenPair) :
  0 <= max_token_age_minutes s ->
  sweep_time <= now_ ->
  (p ∈ get_active_pairs now_ (fst (cleanup_pass sweep_time s))
   <-> p ∈ get_active_pairs now_ s).
Proof.
  intros Hmax Htime. rewrite !elem_of_get_active_pairs.
  change (max_token_age_minutes (fst (cleanup_pass sweep_time s)))
    with (max_token_age_minutes s).
  split; intros [[k Hk] Hage]; (split; [|exact Hage]); exists k.
  - rewrite cleanup_pass_lookup in Hk.
    destruct (discovered_pairs s !! k) as [q|]; [|discriminate].
    destruct (created_at q <? _); [discriminate|exact Hk].
  - rewrite cleanup_pass_lookup, Hk.
    destruct (Z.ltb_spec (created_at p)
                (sweep_time - minutes (2 * max_token_age_minutes s))) as [Hlt|Hge];
      [|reflexivity].
    exfalso. unfold age, minutes in *. lia.
Qed.

(** *** When the polling path notifies *)


(** Scenario: a token the sweep has evicted is announced again when it is
    found under a new signature. *)
Example evicted_token_is_announced_again :
  let s1 := fst (process sample_env (Polling raydium_id) "sigA" sample_monitor) in
  let s2 := fst (cleanup_pass (minutes 2000) s1) in
  discovered_pairs s2 = ∅
  /\ List.length (invoked (snd (process sample_env (Polling raydium_id) "sigA" s2))) = 0%nat
  /\ List.length (invoked (snd (process sample_env (Polling raydium_id) "sigB" s2))) = 2%nat.
Proof. vm_compute. repeat split; reflexivity. Qed.

(** *** The properties at the sample data *)

Lemma sample_parse :
  _parse_transaction sample_env sample_monitor (Some sample_tx) raydium_id "sigA"
  = Some sample_found.
Proof. vm_compute. reflexivity. Qed.

Lemma parse_transaction_accepts_only_witness :
  _parse_transaction sample_env sample_monitor (Some sample_tx) raydium_id "sigA"
  = Some sample_found
  /\ exists tx_data,
       Some sample_tx = Some tx_data
       /\ meta_err tx_data = false
       /\ age (now sample_env) sample_found
          <= minutes (max_token_age_minutes sample_monitor).
Proof.
  split; [exact sample_parse|].
  destruct (parse_transaction_accepts_only sample_env sample_monitor (Some sample_tx)
              raydium_id "sigA" sample_found sample_parse)
    as (tx_data & H1 & H2 & H3 & _).
  exists tx_data. repeat split; assumption.
Defined.

Lemma parse_transaction_pair_shape_witness :
  _parse_transaction sample_env sample_monitor (Some sample_tx) raydium_id "sigA"
  = Some sample_found
  /\ signature sample_found = "sigA"%string
  /\ dex sample_found = _get_dex_name raydium_id.
Proof.
  split; [exact sample_parse|].
  destruct (parse_transaction_pair_shape sample_env sample_monitor sample_tx
              raydium_id "sigA" sample_found sample_parse) as (H1 & H2 & _).
  split; assumption.
Defined.

Lemma program_ids_name_their_dex_witness :
  In raydium_id (_get_program_ids sample_monitor)
  /\ In (_get_dex_name raydium_id) (monitored_dexs sample_monitor).
Proof.
  assert (H : In raydium_id (_get_program_ids sample_monitor)) by (left; reflexivity).
  split; [exact H|].
  apply (program_ids_name_their_dex sample_monitor raydium_id H).
Defined.

Lemma scan_stops_at_failed_fetch_witness :
  get_transaction flaky_env "sigB" = TxRaises "timeout"
  /\ ("sigB"%string ∉ seen_signatures sample_monitor)
  /\ ~ In "sigB"%string [ "sigA"%string ]
  /\ scan_signatures flaky_env raydium_id
       ([ "sigA"%string ] ++ "sigB"%string :: [ "sigC"%string ]) sample_monitor
     = scan_signatures flaky_env raydium_id ([ "sigA"%string ] ++ [ "sigB"%string ])
         sample_monitor.
Proof.
  assert (H1 : get_transaction flaky_env "sigB" = TxRaises "timeout") by reflexivity.
  assert (H2 : "sigB"%string ∉ seen_signatures sample_monitor)
    by (simpl; apply not_elem_of_empty).
  assert (H3 : ~ In "sigB"%string [ "sigA"%string ])
    by (intros [H|[]]; discriminate).
  split; [exact H1|]. split; [exact H2|]. split; [exact H3|].
  apply (scan_stops_at_failed_fetch flaky_env raydium_id [ "sigA"%string ]
           [ "sigC"%string ] "sigB" "timeout" sample_monitor H1 H2 H3).
Defined.

Lemma sweep_keeps_active_pairs_witness :
  0 <= max_token_age_minutes sample_monitor
  /\ minutes 1000 <= minutes 1030
  /\ (sample_found
        ∈ get_active_pairs (minutes 1030)
            (fst (cleanup_pass (minutes 1000)
                    (fst (process sample_env Push "sigA" sample_monitor))))
      <-> sample_found
            ∈ get_active_pairs (minutes 1030)
                (fst (process sample_env Push "sigA" sample_monitor))).
Proof.
  assert (H1 : 0 <= max_token_age_minutes sample_monitor) by (simpl; lia).
  assert (H2 : minutes 1000 <= minutes 1030) by (unfold minutes; lia).
  split; [exact H1|]. split; [exact H2|].
  apply (sweep_keeps_active_pairs (minutes 1000) (minutes 1030)
           (fst (process sample_env Push "sigA" sample_monitor)) sample_found).
  - vm_compute. discriminate.
  - exact H2.
Defined.

End MonitorMore.

(** ** More about the subscription manager *)

Section WebSocketMore.
Import WebSocket.

Lemma keeping_unsubscribe (w : World) (id : Z) : keeping (unsubscribe w id).
Proof.
  unfold unsubscribe.
  apply keeping_bind; [apply keeping_get|intros s0].
  destruct (dict_get id (subscriptions s0)) as [sub|]; [|apply keeping_log; reflexivity].
  apply keeping_bind;
    [destruct (ws s0); [apply keeping_ws_send|apply keeping_ret]|intros _].
  apply keeping_bind; [apply keeping_get|intros s1].
  destruct (dict_del id (subscriptions s1)) as [subs|]; [|apply keeping_raise].
  apply keeping_bind;
    [apply keeping_modify; intros ?; unfold keeps; simpl; repeat split; auto|intros _].
  destruct (dict_del id (callbacks s1)) as [cbs|]; [|apply keeping_raise].
  apply keeping_bind;
    [apply keeping_modify; intros ?; unfold keeps; simpl; repeat split; auto|intros _].
  apply keeping_log. reflexivity.
Qed.



(** *** The two tables *)

Lemma same_tables_refl (s : WebSocketManager) : same_tables s s.
Proof. unfold same_tables. auto. Qed.

Lemma same_tables_trans (a b c : WebSocketManager) :
  same_tables a b -> same_tables b c -> same_tables a c.
Proof. intros (A1 & A2 & A3) (B1 & B2 & B3). unfold same_tables. repeat split; congruence. Qed.

Lemma preserving_bind {A B} (c : M A) (k : A -> M B) :
  preserving c -> (forall a, preserving (k a)) -> preserving (bind c k).
Proof.
  intros Hc Hk s. unfold bind. specialize (Hc s).
  destruct (c s) as [s1 [a|e]]; simpl in *; [|exact Hc].
  eapply same_tables_trans; [exact Hc|apply Hk].
Qed.

Lemma preserving_ret {A} (a : A) : preserving (ret a).
Proof. intros s. apply same_tables_refl. Qed.

Lemma preserving_raise {A} (e : Exn) : preserving (@raise A e).
Proof. intros s. apply same_tables_refl. Qed.

Lemma preserving_get : preserving get.
Proof. intros s. apply same_tables_refl. Qed.

Lemma preserving_log (fx : list Effect) : preserving (log fx).
Proof. intros s. unfold same_tables. simpl. auto. Qed.

Lemma preserving_connect (w : World) : preserving (connect w).
Proof.
  intros s. unfold connect. unfold bind at 1, get at 1.
  destruct (negb (PyStr.truthy (wss_url s))); [apply preserving_log|].
  destruct (negb (enable_websocket s)); [apply preserving_log|].
  unfold bind, modify, log, raise. simpl.
  destruct (connect_ok w (n_connect s)); unfold same_tables; simpl; auto.
Qed.

Lemma preserving_disconnect : preserving disconnect.
Proof.
  intros s. unfold disconnect. unfold bind, get.
  destruct (ws s); [apply preserving_log|apply preserving_ret].
Qed.

Lemma preserving_ws_send (w : World) (req : Request) : preserving (ws_send w req).
Proof.
  intros s. unfold ws_send. unfold bind at 1, get at 1.
  destruct (ws s); [|apply preserving_raise].
  unfold bind, modify, log, raise. simpl.
  destruct (send_ok w (n_send s)); unfold same_tables; simpl; auto.
Qed.

Lemma preserving_send_logs_requests (w : World) (id : Z) (pids : list string) :
  preserving (send_logs_requests w id pids).
Proof.
  induction pids as [|pid pids IH]; simpl; [apply preserving_ret|].
  apply preserving_bind; [apply preserving_ws_send|intros _].
  apply preserving_bind; [apply preserving_log|intros _]. exact IH.
Qed.

(** A subscribe call that returns has filed the subscription and its
    handler under the id it returns, which is the counter; one that raises
    has left both tables alone. *)
Lemma subscribe_logs_tables (w : World) (pids : list string) (h : Handler)
    (s : WebSocketManager) :
  match subscribe_logs w pids h s with
  | (s', Ok id) =>
      id = subscription_id_counter s
      /\ subscriptions s' = dict_set id (Logs pids h) (subscriptions s)
      /\ callbacks s' = dict_set id h (callbacks s)
      /\ subscription_id_counter s' = id + 1
  | (s', Raised _) =>
      subscriptions s' = subscriptions s /\ callbacks s' = callbacks s
      /\ subscription_id_counter s <= subscription_id_counter s'
  end.
Proof.
  unfold subscribe_logs. unfold bind at 1, get at 1. unfold bind at 1.
  assert (Hc : same_tables s (fst ((match ws s with
                                    | None => connect w
                                    | Some _ => ret tt
                                    end) s))).
  { destruct (ws s); [apply same_tables_refl|apply preserving_connect]. }
  destruct ((match ws s with None => connect w | Some _ => ret tt end) s)
    as [s1 [[]|e]]; simpl in Hc; destruct Hc as (C1 & C2 & C3);
    [|repeat split; try assumption; lia].
  unfold bind at 1, get at 1. unfold bind at 1, modify at 1. unfold bind at 1.
  pose proof (preserving_send_logs_requests w (subscription_id_counter s1) pids
                (set_counter (subscription_id_counter s1 + 1) s1)) as Hs.
  destruct (send_logs_requests w (subscription_id_counter s1) pids _)
    as [s2 [[]|e]]; simpl in Hs; destruct Hs as (S1 & S2 & S3); simpl in S1, S2, S3.
  - unfold bind, modify, ret. simpl. rewrite S1, S2, S3, C1, C2, C3. auto.
  - simpl. rewrite S1, S2, S3, C1, C2, C3. repeat split; lia.
Qed.

Lemma subscribe_account_tables (w : World) (a : string) (h : Handler)
    (s : WebSocketManager) :
  match subscribe_account w a h s with
  | (s', Ok id) =>
      id = subscription_id_counter s
      /\ subscriptions s' = dict_set id (AccountChanges a h) (subscriptions s)
      /\ callbacks s' = dict_set id h (callbacks s)
      /\ subscription_id_counter s' = id + 1
  | (s', Raised _) =>
      subscriptions s' = subscriptions s /\ callbacks s' = callbacks s
      /\ subscription_id_counter s <= subscription_id_counter s'
  end.
Proof.
  unfold subscribe_account. unfold bind at 1, get at 1. unfold bind at 1.
  assert (Hc : same_tables s (fst ((match ws s with
                                    | None => connect w
                                    | Some _ => ret tt
                                    end) s))).
  { destruct (ws s); [apply same_tables_refl|apply preserving_connect]. }
  destruct ((match ws s with None => connect w | Some _ => ret tt end) s)
    as [s1 [[]|e]]; simpl in Hc; destruct Hc as (C1 & C2 & C3);
    [|repeat split; try assumption; lia].
  unfold bind at 1, get at 1. unfold bind at 1, modify at 1. unfold bind at 1.
  pose proof (preserving_ws_send w (AccountSubscribe (subscription_id_counter s1) a)
                (set_counter (subscription_id_counter s1 + 1) s1)) as Hs.
  destruct (ws_send w _ _) as [s2 [[]|e]]; simpl in Hs; destruct Hs as (S1 & S2 & S3);
    simpl in S1, S2, S3.
  - unfold bind, modify, ret, log. simpl. rewrite S1, S2, S3, C1, C2, C3. auto.
  - simpl. rewrite S1, S2, S3, C1, C2, C3. repeat split; lia.
Qed.

Lemma dict_get_set_eq {V} (k : Z) (v : V) (d : list (Z * V)) :
  dict_get k (dict_set k v d) = Some v.
Proof.
  induction d as [|[k' v'] d IH]; simpl; [rewrite Z.eqb_refl; reflexivity|].
  destruct (Z.eqb_spec k' k) as [->|Hne]; simpl.
  - rewrite Z.eqb_refl. reflexivity.
  - destruct (Z.eqb_spec k' k); [contradiction|exact IH].
Qed.

Lemma dict_get_set_ne {V} (k k0 : Z) (v : V) (d : list (Z * V)) :
  k0 <> k -> dict_get k0 (dict_set k v d) = dict_get k0 d.
Proof.
  intros Hne. induction d as [|[k' v'] d IH]; simpl.
  - destruct (Z.eqb_spec k k0); [congruence|reflexivity].
  - destruct (Z.eqb_spec k' k) as [->|Hk]; simpl.
    + destruct (Z.eqb_spec k k0); [congruence|reflexivity].
    + destruct (Z.eqb_spec k' k0); [reflexivity|exact IH].
Qed.

Lemma callbacks_for_keys (d : list (Z * Subscription)) :
  List.map fst (callbacks_for d) = List.map fst d.
Proof. unfold callbacks_for. rewrite List.map_map. reflexivity. Qed.

Lemma callbacks_for_below (c : Z) (d : list (Z * Subscription)) :
  Forall (fun e => fst e < c) d -> Forall (fun e => fst e < c) (callbacks_for d).
Proof.
  induction d as [|[k sub] d IH]; intros H; simpl; [constructor|].
  inversion H; subst. constructor; [assumption|apply IH; assumption].
Qed.

Lemma callbacks_for_mem (k : Z) (d : list (Z * Subscription)) :
  dict_mem k (callbacks_for d) = dict_mem k d.
Proof.
  induction d as [|[k' sub] d IH]; simpl; [reflexivity|].
  unfold dict_mem in *. simpl. rewrite IH. reflexivity.
Qed.

Lemma callbacks_for_filter (k : Z) (d : list (Z * Subscription)) :
  List.filter (fun e => negb (fst e =? k)) (callbacks_for d)
  = callbacks_for (List.filter (fun e => negb (fst e =? k)) d).
Proof.
  induction d as [|[k' sub] d IH]; simpl; [reflexivity|].
  destruct (k' =? k); simpl; rewrite IH; reflexivity.
Qed.

Lemma sorted_snoc (l : list Z) (c : Z) :
  StronglySorted Z.lt l -> Forall (fun x => x < c) l -> StronglySorted Z.lt (l ++ [c]).
Proof.
  induction l as [|a l IH]; intros Hs Hall; simpl.
  - repeat constructor.
  - inversion Hs; subst. inversion Hall; subst. constructor.
    + apply IH; assumption.
    + apply Forall_app. split; [assumption|repeat constructor; assumption].
Qed.

Lemma sorted_filter (f : Z * Subscription -> bool) (d : list (Z * Subscription)) :
  StronglySorted Z.lt (List.map fst d) ->
  StronglySorted Z.lt (List.map fst (List.filter f d)).
Proof.
  induction d as [|e d IH]; simpl; intros Hs; [constructor|].
  inversion Hs as [|? ? Hs' Hall]; subst.
  destruct (f e); simpl; [|apply IH; exact Hs'].
  constructor; [apply IH; exact Hs'|].
  rewrite List.Forall_forall in *. intros x Hx. apply Hall.
  apply in_map_iff in Hx. destruct Hx as [y [<- Hy]].
  apply filter_In in Hy. apply in_map. tauto.
Qed.

Lemma tables_sound_registered (s s' : WebSocketManager) (sub : Subscription) :
  tables_sound s ->
  subscriptions s' = dict_set (subscription_id_counter s) sub (subscriptions s) ->
  callbacks s' = dict_set (subscription_id_counter s) (callback_of sub) (callbacks s) ->
  subscription_id_counter s' = subscription_id_counter s + 1 ->
  tables_sound s'.
Proof.
  intros [[Hcb Hbelow] Hsorted] Hs Hc Hn.
  rewrite (dict_set_fresh _ _ _ Hbelow) in Hs.
  rewrite Hcb in Hc. rewrite (dict_set_fresh _ _ _ (callbacks_for_below _ _ Hbelow)) in Hc.
  unfold tables_sound, tables_agree. rewrite Hs, Hc, Hn. repeat split.
  - unfold callbacks_for. rewrite List.map_app. reflexivity.
  - apply Forall_app. split.
    + eapply Forall_impl; [exact Hbelow|]. simpl. intros e He. lia.
    + repeat constructor. simpl. lia.
  - rewrite List.map_app. simpl. apply sorted_snoc; [exact Hsorted|].
    apply Forall_fmap. exact Hbelow.
Qed.

Lemma tables_sound_untouched (s s' : WebSocketManager) :
  tables_sound s ->
  subscriptions s' = subscriptions s -> callbacks s' = callbacks s ->
  subscription_id_counter s <= subscription_id_counter s' ->
  tables_sound s'.
Proof.
  intros [[Hcb Hbelow] Hsorted] Hs Hc Hn.
  unfold tables_sound, tables_agree. rewrite Hs, Hc. repeat split; try assumption.
  eapply Forall_impl; [exact Hbelow|]. simpl. intros e He. lia.
Qed.

Lemma tables_sound_subscribe_logs (w : World) (pids : list string) (h : Handler)
    (s : WebSocketManager) :
  tables_sound s -> tables_sound (fst (subscribe_logs w pids h s)).
Proof.
  intros Hs. pose proof (subscribe_logs_tables w pids h s) as H.
  destruct (subscribe_logs w pids h s) as [s' [id|e]]; simpl.
  - destruct H as (-> & H1 & H2 & H3).
    exact (tables_sound_registered s s' (Logs pids h) Hs H1 H2 H3).
  - destruct H as (H1 & H2 & H3). exact (tables_sound_untouched s s' Hs H1 H2 H3).
Qed.

Lemma tables_sound_subscribe_account (w : World) (a : string) (h : Handler)
    (s : WebSocketManager) :
  tables_sound s -> tables_sound (fst (subscribe_account w a h s)).
Proof.
  intros Hs. pose proof (subscribe_account_tables w a h s) as H.
  destruct (subscribe_account w a h s) as [s' [id|e]]; simpl.
  - destruct H as (-> & H1 & H2 & H3).
    exact (tables_sound_registered s s' (AccountChanges a h) Hs H1 H2 H3).
  - destruct H as (H1 & H2 & H3). exact (tables_sound_untouched s s' Hs H1 H2 H3).
Qed.

(** With the tables going together, [unsubscribe] either leaves both as
    they are or removes the id from both, and its second [del] finds its
    key. *)
Lemma unsubscribe_tables (w : World) (id : Z) (s : WebSocketManager) :
  callbacks s = callbacks_for (subscriptions s) ->
  snd (unsubscribe w id s) <> Raised KeyError
  /\ ((subscriptions (fst (unsubscribe w id s)) = subscriptions s
       /\ callbacks (fst (unsubscribe w id s)) = callbacks s)
      \/ (snd (unsubscribe w id s) = Ok tt
          /\ dict_mem id (subscriptions s) = true
          /\ subscriptions (fst (unsubscribe w id s))
             = List.filter (fun e => negb (fst e =? id)) (subscriptions s)
          /\ callbacks (fst (unsubscribe w id s))
             = List.filter (fun e => negb (fst e =? id)) (callbacks s))).
Proof.
  intros Hcb.
  set (P := fun run : WebSocketManager * Res unit =>
              snd run <> Raised KeyError
              /\ ((subscriptions (fst run) = subscriptions s
                   /\ callbacks (fst run) = callbacks s)
                  \/ (snd run = Ok tt
                      /\ dict_mem id (subscriptions s) = true
                      /\ subscriptions (fst run)
                         = List.filter (fun e => negb (fst e =? id)) (subscriptions s)
                      /\ callbacks (fst run)
                         = List.filter (fun e => negb (fst e =? id)) (callbacks s)))).
  change (P (unsubscribe w id s)).
  unfold unsubscribe. unfold bind at 1, get at 1.
  destruct (dict_get id (subscriptions s)) as [sub|] eqn:Eg.
  2:{ unfold P, log, modify. simpl. split; [discriminate|left; auto]. }
  pose proof (dict_get_mem _ _ _ Eg) as Hmem.
  set (request := match sub with
                  | Logs _ _ => LogsUnsubscribe id
                  | AccountChanges _ _ => AccountUnsubscribe id
                  end).
  unfold bind at 1.
  assert (Hsend : same_tables s (fst ((match ws s with
                                       | Some _ => ws_send w request
                                       | None => ret tt
                                       end) s))
                  /\ snd ((match ws s with
                           | Some _ => ws_send w request
                           | None => ret tt
                           end) s) <> Raised KeyError).
  { destruct (ws s) eqn:Ews.
    - split; [apply preserving_ws_send|].
      unfold ws_send, bind, get, modify, log, raise. rewrite Ews. simpl.
      destruct (send_ok w (n_send s)); discriminate.
    - split; [apply same_tables_refl|discriminate]. }
  destruct ((match ws s with Some _ => ws_send w request | None => ret tt end) s)
    as [s1 [[]|e]]; simpl in Hsend; destruct Hsend as [(T1 & T2 & T3) Hne].
  2:{ unfold P. simpl. split; [exact Hne|left; auto]. }
  unfold bind at 1, get at 1. unfold dict_del.
  assert (Hmem2 : dict_mem id (callbacks s) = true)
    by (rewrite Hcb, callbacks_for_mem; exact Hmem).
  rewrite T1, T2, Hmem, Hmem2.
  unfold P, bind, modify, log. simpl. split; [discriminate|]. right. auto.
Qed.

Lemma tables_sound_unsubscribe (w : World) (id : Z) (s : WebSocketManager) :
  tables_sound s -> tables_sound (fst (unsubscribe w id s)).
Proof.
  intros Hs. pose proof Hs as [[Hcb Hbelow] Hsorted].
  pose proof (unsubscribe_counter w id s) as Hn.
  destruct (unsubscribe_tables w id s Hcb) as [_ [[H1 H2]|(_ & _ & H1 & H2)]].
  - apply (tables_sound_untouched s); [exact Hs|exact H1|exact H2|lia].
  - unfold tables_sound, tables_agree. rewrite H1, H2, Hn, Hcb. repeat split.
    + apply callbacks_for_filter.
    + rewrite List.Forall_forall in *. intros e He. apply filter_In in He.
      apply Hbelow. tauto.
    + apply sorted_filter. exact Hsorted.
Qed.

Lemma tables_sound_resubscribe_each (w : World) (l : list (Z * Subscription))
    (s : WebSocketManager) :
  tables_sound s -> tables_sound (fst (resubscribe_each w l s)).
Proof.
  revert s. induction l as [|[k [pids h|a h]] l IH]; intros s Hs; simpl; [exact Hs| |].
  - unfold bind. pose proof (tables_sound_subscribe_logs w pids h s Hs) as H1.
    destruct (subscribe_logs w pids h s) as [s1 [id|e]]; simpl in *; [|exact H1].
    apply IH. exact H1.
  - unfold bind. pose proof (tables_sound_subscribe_account w a h s Hs) as H1.
    destruct (subscribe_account w a h s) as [s1 [id|e]]; simpl in *; [|exact H1].
    apply IH. exact H1.
Qed.

Lemma tables_sound_resubscribe_all (w : World) (s : WebSocketManager) :
  tables_sound (fst (_resubscribe_all w s)).
Proof.
  unfold _resubscribe_all. unfold bind at 1, get at 1. unfold bind at 1, modify at 1.
  apply tables_sound_resubscribe_each.
  unfold tables_sound, tables_agree. simpl. repeat split; constructor.
Qed.

Lemma tables_sound_reconnect (w : World) (s : WebSocketManager) :
  tables_sound s ->
  tables_sound (fst ((call disconnect; call connect w; _resubscribe_all w)%ws s)).
Proof.
  intros Hs. unfold bind at 1.
  pose proof (preserving_disconnect s) as (D1 & D2 & D3).
  destruct (disconnect s) as [s1 [[]|e]]; simpl in *.
  2:{ apply (tables_sound_untouched s); [exact Hs|exact D1|exact D2|lia]. }
  unfold bind at 1.
  pose proof (preserving_connect w s1) as (C1 & C2 & C3).
  destruct (connect w s1) as [s2 [[]|e]]; simpl in *.
  2:{ apply (tables_sound_untouched s); [exact Hs|congruence|congruence|lia]. }
  apply tables_sound_resubscribe_all.
Qed.

Lemma tables_sound_run_calls (w : World) (cs : list Call) (s : WebSocketManager) :
  tables_sound s -> tables_sound (fst (run_calls w cs s)).
Proof.
  revert s. induction cs as [|c cs IH]; intros s Hs; simpl; [exact Hs|].
  destruct c as [pids h|a h|id|].
  - pose proof (tables_sound_subscribe_logs w pids h s Hs) as H1.
    destruct (subscribe_logs w pids h s) as [s1 [id|e]]; simpl in H1.
    + specialize (IH s1 H1). destruct (run_calls w cs s1) as [s2 ids]. exact IH.
    + apply IH. exact H1.
  - pose proof (tables_sound_subscribe_account w a h s Hs) as H1.
    destruct (subscribe_account w a h s) as [s1 [id|e]]; simpl in H1.
    + specialize (IH s1 H1). destruct (run_calls w cs s1) as [s2 ids]. exact IH.
    + apply IH. exact H1.
  - apply IH, tables_sound_unsubscribe, Hs.
  - apply IH, tables_sound_reconnect, Hs.
Qed.

(** X10.  In a manager built by [__init__] and used through its methods
    in any way, whatever the network does and whichever calls raise, the
    callback table holds exactly the handler of each subscription under the
    same id, every id in the tables has been issued (it is below the
    counter), the ids are in increasing order, so none is there twice, and
    [unsubscribe] never fails on a key missing from the callback table. *)
Theorem tables_always_sound
    (w w' : World) (cs : list Call) (url : string) (enabled : bool) (id : Z) :
  let s := fst (run_calls w cs (init url enabled)) in
  callbacks s = callbacks_for (subscriptions s)
  /\ Forall (fun e => fst e < subscription_id_counter s) (subscriptions s)
  /\ StronglySorted Z.lt (List.map fst (subscriptions s))
  /\ snd (unsubscribe w' id s) <> Raised KeyError.
Proof.
  cbv zeta.
  assert (H : tables_sound (fst (run_calls w cs (init url enabled)))).
  { apply tables_sound_run_calls. unfold tables_sound, tables_agree. simpl.
    repeat split; constructor. }
  destruct H as [[Hcb Hbelow] Hsorted]. repeat split; try assumption.
  apply unsubscribe_tables. exact Hcb.
Qed.

(** X11.  A subscribe call ([subscribe_logs] or [subscribe_account]) that
    returns has registered the subscription, with its filter and its
    handler, under the id it returns, and has touched no other entry of
    either table; a subscribe call that raises (the connection could not be
    opened, or a request could not be sent) has registered nothing. *)
Theorem subscribe_registers_or_leaves
    (w : World) (pids : list string) (a : string) (h : Handler) (s : WebSocketManager) :
  match subscribe_logs w pids h s with
  | (s', Ok id) =>
      dict_get id (subscriptions s') = Some (Logs pids h)
      /\ dict_get id (callbacks s') = Some h
      /\ (forall k, k <> id ->
            dict_get k (subscriptions s') = dict_get k (subscriptions s)
            /\ dict_get k (callbacks s') = dict_get k (callbacks s))
  | (s', Raised _) =>
      subscriptions s' = subscriptions s /\ callbacks s' = callbacks s
  end
  /\ match subscribe_account w a h s with
     | (s', Ok id) =>
         dict_get id (subscriptions s') = Some (AccountChanges a h)
         /\ dict_get id (callbacks s') = Some h
         /\ (forall k, k <> id ->
               dict_get k (subscriptions s') = dict_get k (subscriptions s)
               /\ dict_get k (callbacks s') = dict_get k (callbacks s))
     | (s', Raised _) =>
         subscriptions s' = subscriptions s /\ callbacks s' = callbacks s
     end.
Proof.
  split.
  - pose proof (subscribe_logs_tables w pids h s) as H.
    destruct (subscribe_logs w pids h s) as [s' [id|e]].
    + destruct H as (_ & H1 & H2 & _). rewrite H1, H2.
      split; [apply dict_get_set_eq|]. split; [apply dict_get_set_eq|].
      intros k Hk. split; apply dict_get_set_ne; exact Hk.
    + destruct H as (H1 & H2 & _). split; assumption.
  - pose proof (subscribe_account_tables w a h s) as H.
    destruct (subscribe_account w a h s) as [s' [id|e]].
    + destruct H as (_ & H1 & H2 & _). rewrite H1, H2.
      split; [apply dict_get_set_eq|]. split; [apply dict_get_set_eq|].
      intros k Hk. split; apply dict_get_set_ne; exact Hk.
    + destruct H as (H1 & H2 & _). split; assumption.
Qed.

(** *** Subscribing and unsubscribing again *)

Lemma unsubscribe_removes (w : World) (id : Z) (s : WebSocketManager)
    (sub : Subscription) :
  dict_get id (subscriptions s) = Some sub ->
  dict_mem id (callbacks s) = true ->
  (ws s = None \/ send_ok w (n_send s) = true) ->
  snd (unsubscribe w id s) = Ok tt
  /\ subscriptions (fst (unsubscribe w id s))
     = List.filter (fun e => negb (fst e =? id)) (subscriptions s)
  /\ callbacks (fst (unsubscribe w id s))
     = List.filter (fun e => negb (fst e =? id)) (callbacks s)
  /\ subscription_id_counter (fst (unsubscribe w id s)) = subscription_id_counter s.
Proof.
  intros Hsub Hcb Hsend.
  pose proof (dict_get_mem _ _ _ Hsub) as Hmem.
  unfold unsubscribe, bind, get. simpl. rewrite Hsub.
  destruct (ws s) as [c|] eqn:Ews.
  - destruct Hsend as [Hn|Hok]; [discriminate|].
    unfold ws_send, bind, get, modify, log. simpl. rewrite Ews. simpl. rewrite Hok.
    simpl. unfold dict_del. rewrite Hmem, Hcb. simpl. repeat split; reflexivity.
  - unfold ret, modify, log. simpl. unfold dict_del. rewrite Hmem, Hcb. simpl.
    repeat split; reflexivity.
Qed.

Lemma filter_out_fresh {V} (c : Z) (v : V) (d : list (Z * V)) :
  Forall (fun e => fst e < c) d ->
  List.filter (fun e => negb (fst e =? c)) (d ++ [(c, v)]) = d.
Proof.
  induction d as [|[k x] d IH]; intros Hall; simpl.
  - rewrite Z.eqb_refl. reflexivity.
  - inversion Hall as [|? ? Hlt Hrest]; subst. simpl in Hlt.
    destruct (Z.eqb_spec k c); [lia|]. simpl. rewrite IH by exact Hrest. reflexivity.
Qed.

(** X12.  On a socket that works, subscribing and then unsubscribing the
    id that was returned puts both tables back exactly as they were; only
    the counter has moved on, so the id is not issued again. *)
Theorem subscribe_then_unsubscribe
    (w : World) (c : nat) (pids : list string) (h : Handler) (s : WebSocketManager) :
  tables_sound s ->
  live w c s ->
  exists s1 s2,
    subscribe_logs w pids h s = (s1, Ok (subscription_id_counter s))
    /\ unsubscribe w (subscription_id_counter s) s1 = (s2, Ok tt)
    /\ subscriptions s2 = subscriptions s
    /\ callbacks s2 = callbacks s
    /\ subscription_id_counter s2 = subscription_id_counter s + 1.
Proof.
  intros [[Hcb Hbelow] Hsorted] Hlive.
  destruct (subscribe_logs_ok w c pids h s Hlive) as (s1 & E1 & L1 & S1 & C1 & N1).
  rewrite (dict_set_fresh _ _ _ Hbelow) in S1.
  pose proof (callbacks_for_below _ _ Hbelow) as Hbelow'. rewrite <- Hcb in Hbelow'.
  rewrite (dict_set_fresh _ _ _ Hbelow') in C1.
  assert (Hget : dict_get (subscription_id_counter s) (subscriptions s1)
                 = Some (Logs pids h)).
  { pose proof (subscribe_logs_tables w pids h s) as T. rewrite E1 in T.
    destruct T as (_ & T & _). rewrite T. apply dict_get_set_eq. }
  assert (Hmem : dict_mem (subscription_id_counter s) (callbacks s1) = true).
  { pose proof (subscribe_logs_tables w pids h s) as T. rewrite E1 in T.
    destruct T as (_ & _ & T & _). rewrite T.
    eapply dict_get_mem. apply dict_get_set_eq. }
  destruct L1 as [Hws Hok].
  destruct (unsubscribe_removes w (subscription_id_counter s) s1 (Logs pids h)
              Hget Hmem (or_intror (Hok (n_send s1) (Nat.le_refl _))))
    as (R & U1 & U2 & U3).
  exists s1, (fst (unsubscribe w (subscription_id_counter s) s1)).
  split; [exact E1|]. split.
  { destruct (unsubscribe w (subscription_id_counter s) s1) as [s2 r].
    simpl in *. rewrite R. reflexivity. }
  rewrite U1, U2, U3, S1, C1, N1.
  rewrite (filter_out_fresh _ _ _ Hbelow), (filter_out_fresh _ _ _ Hbelow').
  repeat split; reflexivity.
Qed.

(** *** A manager that has no socket to open *)

Lemma connect_unconfigured (w : World) (s : WebSocketManager) :
  (PyStr.truthy (wss_url s) && enable_websocket s)%bool = false ->
  exists fx, connect w s = (emit fx s, Ok tt).
Proof.
  intros Hcfg. unfold connect. unfold bind at 1, get at 1.
  destruct (PyStr.truthy (wss_url s)); simpl in *.
  - rewrite Hcfg. simpl. eexists. reflexivity.
  - eexists. reflexivity.
Qed.

Lemma subscribe_logs_no_socket (w : World) (pid : string) (pids : list string)
    (h : Handler) (s : WebSocketManager) :
  (PyStr.truthy (wss_url s) && enable_websocket s)%bool = false ->
  ws s = None ->
  exists fx,
    subscribe_logs w (pid :: pids) h s
    = (set_counter (subscription_id_counter s + 1) (emit fx s), Raised AttributeError).
Proof.
  intros Hcfg Hws. destruct (connect_unconfigured w s Hcfg) as [fx Ec].
  exists fx. unfold subscribe_logs. unfold bind at 1, get at 1. rewrite Hws.
  unfold bind at 1. rewrite Ec.
  unfold bind at 1, get at 1. unfold bind at 1, modify at 1.
  simpl. unfold bind at 1. unfold bind at 1.
  unfold ws_send at 1. unfold bind at 1, get at 1. simpl. rewrite Hws.
  reflexivity.
Qed.

Lemma listen_no_socket (w : World) (fuel : nat) (s : WebSocketManager) :
  (PyStr.truthy (wss_url s) && enable_websocket s)%bool = false ->
  ws s = None ->
  snd (listen w (S fuel) s) = Raised AttributeError
  /\ running (fst (listen w (S fuel) s)) = false
  /\ n_connect (fst (listen w (S fuel) s)) = n_connect s.
Proof.
  intros Hcfg Hws. destruct s as [url en sock subs c cbs r a m nc ns np nr fx].
  simpl in Hcfg, Hws. subst sock.
  destruct url as [|ch url]; [|destruct en; [discriminate|]];
    cbn; repeat split; reflexivity.
Qed.

Lemma keeps_run_calls (w : World) (cs : list Call) (s : WebSocketManager) :
  keeps s (fst (run_calls w cs s)).
Proof.
  revert s. induction cs as [|c cs IH]; intros s; simpl; [apply keeps_refl|].
  destruct c as [pids h|a h|id|].
  - pose proof (keeping_subscribe_logs w pids h s) as K.
    destruct (subscribe_logs w pids h s) as [s1 [id|e]]; simpl in K.
    + specialize (IH s1). destruct (run_calls w cs s1) as [s2 ids].
      eapply keeps_trans; eassumption.
    + eapply keeps_trans; [exact K|apply IH].
  - pose proof (keeping_subscribe_account w a h s) as K.
    destruct (subscribe_account w a h s) as [s1 [id|e]]; simpl in K.
    + specialize (IH s1). destruct (run_calls w cs s1) as [s2 ids].
      eapply keeps_trans; eassumption.
    + eapply keeps_trans; [exact K|apply IH].
  - eapply keeps_trans; [apply keeping_unsubscribe|apply IH].
  - eapply keeps_trans; [|apply IH].
    apply keeping_bind; [apply keeping_disconnect|intros _].
    apply keeping_bind; [apply keeping_connect|intros _].
    apply keeping_resubscribe_all.
Qed.

(** X13.  When the configuration gives no websocket URL (as for every
    primary provider but quicknode) or disables the websocket, the manager
    never has a socket, however it is used: [connect] returns as if it had
    succeeded, without trying to open a connection; a [subscribe_logs] for
    at least one program raises on the missing socket, having used up an id
    and registered nothing; and [listen] raises in the same way as soon as
    it is to receive. *)
Theorem no_socket_without_configuration
    (cfg : Config.Config) (w w' : World) (cs : list Call)
    (pid : string) (pids : list string) (h : Handler) (fuel : nat) :
  String.eqb (Config.primary_rpc_provider cfg) "quicknode"
  && PyStr.truthy (Config.quicknode_wss_url cfg)
  && Config.enable_websocket cfg = false ->
  let s := fst (run_calls w' cs (Config.websocket_manager cfg)) in
  ws s = None
  /\ (snd (connect w s) = Ok tt
      /\ ws (fst (connect w s)) = None
      /\ n_connect (fst (connect w s)) = n_connect s)
  /\ (snd (subscribe_logs w (pid :: pids) h s) = Raised AttributeError
      /\ subscription_id_counter (fst (subscribe_logs w (pid :: pids) h s))
         = subscription_id_counter s + 1
      /\ subscriptions (fst (subscribe_logs w (pid :: pids) h s)) = subscriptions s
      /\ callbacks (fst (subscribe_logs w (pid :: pids) h s)) = callbacks s)
  /\ (snd (listen w (S fuel) s) = Raised AttributeError
      /\ running (fst (listen w (S fuel) s)) = false).
Proof.
  intros Hcfg. cbv zeta.
  set (s0 := Config.websocket_manager cfg).
  assert (H0 : (PyStr.truthy (wss_url s0) && enable_websocket s0)%bool = false).
  { unfold s0, Config.websocket_manager, Config.get_wss_url. simpl.
    destruct (String.eqb (Config.primary_rpc_provider cfg) "quicknode");
      simpl in *; [exact Hcfg|reflexivity]. }
  pose proof (keeps_run_calls w' cs s0) as (U & E & _ & _ & _ & V & _).
  set (s := fst (run_calls w' cs s0)) in *.
  assert (Hs : (PyStr.truthy (wss_url s) && enable_websocket s)%bool = false)
    by (rewrite U, E; exact H0).
  assert (Hws : ws s = None).
  { destruct (ws s) eqn:Ews; [|reflexivity]. exfalso.
    destruct V as [Hw|[Hu He]]; [discriminate|apply Hw; reflexivity|].
    rewrite Hu, He in H0. discriminate. }
  clearbody s.
  destruct (connect_unconfigured w s Hs) as [fx Ec].
  destruct (subscribe_logs_no_socket w pid pids h s Hs Hws) as [fx1 E1].
  destruct (listen_no_socket w fuel s Hs Hws) as (L1 & L2 & L3).
  rewrite Ec, E1. simpl. repeat split; assumption || reflexivity.
Qed.

(** *** The properties at the sample data *)

Lemma subscribe_then_unsubscribe_witness :
  tables_sound subscribed_twice
  /\ live world_fine 0 subscribed_twice
  /\ exists s1 s2,
       subscribe_logs world_fine [ "P1"%string ] handler_a subscribed_twice
       = (s1, Ok 2)
       /\ unsubscribe world_fine 2 s1 = (s2, Ok tt)
       /\ subscriptions s2 = subscriptions subscribed_twice.
Proof.
  assert (T : tables_sound subscribed_twice).
  { unfold subscribed_twice.
    apply tables_sound_subscribe_account, tables_sound_subscribe_logs.
    unfold tables_sound, tables_agree. simpl. repeat split; constructor. }
  assert (L : live world_fine 0 subscribed_twice).
  { split; [reflexivity|]. intros n _. reflexivity. }
  split; [exact T|]. split; [exact L|].
  destruct (subscribe_then_unsubscribe world_fine 0 [ "P1"%string ] handler_a
              subscribed_twice T L) as (s1 & s2 & E1 & E2 & S & _).
  exists s1, s2. repeat split; assumption.
Defined.

Lemma no_socket_without_configuration_witness :
  String.eqb (Config.primary_rpc_provider Config.helius_first) "quicknode"
  && PyStr.truthy (Config.quicknode_wss_url Config.helius_first)
  && Config.enable_websocket Config.helius_first = false
  /\ snd (subscribe_logs world_fine [ "P1"%string ] handler_a
            (fst (run_calls world_fine [ CallReconnect ]
                    (Config.websocket_manager Config.helius_first))))
     = Raised AttributeError.
Proof.
  split; [reflexivity|].
  apply (no_socket_without_configuration Config.helius_first world_fine world_fine
           [ CallReconnect ] "P1" [] handler_a 0).
  reflexivity.
Defined.

End WebSocketMore.

(** ** More about the provider client *)

Section RpcMore.
Import Rpc.

Lemma counted_app (b : bool) (x y : list Effect) :
  counted b (x ++ y) = (counted b x + counted b y)%nat.
Proof. unfold counted. rewrite List.filter_app, List.length_app. reflexivity. Qed.

Lemma total_wait_app (x y : list Effect) :
  total_wait (x ++ y) = total_wait x + total_wait y.
Proof.
  unfold total_wait. rewrite sleeps_app.
  induction (sleeps x) as [|d l IH]; simpl; [reflexivity|]. rewrite IH. lia.
Qed.

(** What one decorated call costs. *)
Ltac cost_done p :=
  destruct p; cbn;
  change (wait 1) with 2; change (wait 2) with 2; cbn; repeat split; lia.

Lemma make_request_cost (ep : Endpoint) (p : Provider) :
  let run := _make_request ep p in
  (1 <= attempts p (snd run) <= 3)%nat
  /\ 0 <= total_wait (snd run) <= 4
  /\ counted true (snd run) = (if is_raised (fst run) then 0 else 1)%nat
  /\ (counted true (snd run) + counted false (snd run))%nat = attempts p (snd run).
Proof.
  cbv zeta. unfold _make_request, max_attempts. simpl. unfold _make_request_once.
  destruct (ep 1%nat) as [x|e1]; [cost_done p|].
  destruct (retryable e1); simpl; [|cost_done p].
  destruct (ep 2%nat) as [x|e2]; [cost_done p|].
  destruct (retryable e2); simpl; [|cost_done p].
  destruct (ep 3%nat) as [x|e3]; [cost_done p|].
  destruct (retryable e3); simpl; cost_done p.
Qed.

(** X14.  Whatever the two endpoints do, one call of [get_token_supply]
    makes at most 3 attempts at each endpoint, sleeps at most 8 time-units
    in all, counts every attempt exactly once in the request metric, as a
    success or as an error, and counts one success exactly when it returns
    a response. *)
Theorem call_cost_bounded (valid : string -> bool) (c : RPCClient) (addr : string) :
  let run := get_token_supply valid c addr in
  (attempts Primary (snd run) <= 3)%nat
  /\ (attempts Backup (snd run) <= 3)%nat
  /\ 0 <= total_wait (snd run) <= 8
  /\ (counted true (snd run) + counted false (snd run))%nat
     = (attempts Primary (snd run) + attempts Backup (snd run))%nat
  /\ counted true (snd run) = (if is_raised (fst run) then 0 else 1)%nat.
Proof.
  cbv zeta. unfold get_token_supply, pubkey_from_string.
  destruct (valid addr).
  2:{ destruct (backup_client c); cbn; repeat split; lia. }
  pose proof (make_request_cost (primary_client c) Primary) as (A1 & W1 & S1 & T1).
  pose proof (attempts_other (primary_client c) Primary Backup ltac:(discriminate)) as O1.
  destruct (_make_request (primary_client c) Primary) as [r1 fx1]. simpl in *.
  destruct r1 as [x|e]; simpl in *.
  { repeat split; lia. }
  destruct (backup_client c) as [b|].
  - pose proof (make_request_cost b Backup) as (A2 & W2 & S2 & T2).
    pose proof (attempts_other b Backup Primary ltac:(discriminate)) as O2.
    destruct (_make_request b Backup) as [r2 fx2]. simpl in *.
    rewrite !attempts_app, !counted_app, !total_wait_app, !attempts_log.
    change (counted true [LogError "Failed to get token supply"]) with 0%nat.
    change (counted false [LogError "Failed to get token supply"]) with 0%nat.
    change (total_wait [LogError "Failed to get token supply"]) with 0.
    repeat split; try lia.
  - simpl. rewrite !attempts_app, !counted_app, !total_wait_app, !attempts_log.
    change (counted true [LogError "Failed to get token supply"]) with 0%nat.
    change (counted false [LogError "Failed to get token supply"]) with 0%nat.
    change (total_wait [LogError "Failed to get token supply"]) with 0.
    repeat split; lia.
Qed.

(** X15.  An address that [Pubkey.from_string] refuses never reaches the
    network: [get_token_supply] raises the [ValueError] without a single
    attempt at either endpoint, with or without a backup, and without a
    wait. *)
Theorem bad_address_makes_no_request
    (valid : string -> bool) (c : RPCClient) (addr : string) :
  valid addr = false ->
  fst (get_token_supply valid c addr) = Raised (ValueError "invalid public key")
  /\ attempts Primary (snd (get_token_supply valid c addr)) = 0%nat
  /\ attempts Backup (snd (get_token_supply valid c addr)) = 0%nat
  /\ sleeps (snd (get_token_supply valid c addr)) = [].
Proof.
  intros Hbad. unfold get_token_supply, pubkey_from_string. rewrite Hbad.
  destruct (backup_client c); cbn; repeat split; reflexivity.
Qed.

Lemma bad_address_makes_no_request_witness :
  (fun _ : string => false) "not-a-key"%string = false
  /\ fst (get_token_supply (fun _ => false) client_failover "not-a-key")
     = Raised (ValueError "invalid public key").
Proof.
  split; [reflexivity|].
  apply (bad_address_makes_no_request (fun _ => false) client_failover "not-a-key").
  reflexivity.
Defined.

End RpcMore.

(** ** The application's observer *)

Section ScannerFacts.
Import Monitor Scanner.
#[local] Set Warnings "-clear-no-such-hyp".

Lemma times_processed_app (token : string) (x y : list Scanner.Effect) :
  times_processed token (x ++ y) = (times_processed token x + times_processed token y)%nat.
Proof. unfold times_processed. rewrite List.filter_app, List.length_app. reflexivity. Qed.

Lemma alerts_sent_app (ch : Channel) (token : string) (x y : list Scanner.Effect) :
  alerts_sent ch token (x ++ y) = (alerts_sent ch token x + alerts_sent ch token y)%nat.
Proof. unfold alerts_sent. rewrite List.filter_app, List.length_app. reflexivity. Qed.

Lemma send_alerts_counts (w : Scanner.World) (s : MoonScanner) (p : TokenPair)
    (ch : Channel) (token : string) :
  times_processed token (_send_alerts w s p) = 0%nat
  /\ (alerts_sent ch token (_send_alerts w s p) <= 1)%nat.
Proof.
  unfold _send_alerts, enabled_channels.
  destruct (telegram_enabled s), (discord_enabled s), (webhook_enabled s), ch;
    cbn; destruct (String.eqb (token_address p) token); cbn; split; lia.
Qed.

(** One call of the observer: it takes the token up only if it is new,
    and then leaves it in the set of processed tokens. *)
Lemma on_new_pair_counts (w : Scanner.World) (p : TokenPair) (s : MoonScanner)
    (ch : Channel) (token : string) :
  let run := _on_new_pair w p s in
  processed_tokens s ⊆ processed_tokens (fst run)
  /\ token_address p ∈ processed_tokens (fst run)
  /\ (token ∈ processed_tokens s ->
      times_processed token (snd run) = 0%nat /\ alerts_sent ch token (snd run) = 0%nat)
  /\ (times_processed token (snd run) <= 1)%nat
  /\ (alerts_sent ch token (snd run) <= 1)%nat
  /\ ((0 < times_processed token (snd run) + alerts_sent ch token (snd run))%nat ->
      token ∈ processed_tokens (fst run)).
Proof.
  cbv zeta. unfold _on_new_pair.
  destruct (decide (token_address p ∈ processed_tokens s)) as [Hin|Hnew]; simpl.
  { repeat split; try (intros; reflexivity); try lia; try set_solver.
    cbn. lia. }
  destruct (send_alerts_counts w
              (set_processed ({[token_address p]} ∪ processed_tokens s) s) p ch token)
    as [Hs0 Hs1].
  assert (Hother : forall fx : list Scanner.Effect,
             token_address p <> token ->
             times_processed token (Processing (token_address p) :: fx)
             = times_processed token fx).
  { intros fx Hne. unfold times_processed. simpl.
    destruct (String.eqb_spec (token_address p) token); [contradiction|reflexivity]. }
  assert (Hsame : forall fx : list Scanner.Effect,
             times_processed (token_address p) (Processing (token_address p) :: fx)
             = S (times_processed (token_address p) fx)).
  { intros fx. unfold times_processed. simpl. rewrite String.eqb_refl. reflexivity. }
  assert (Halert : forall fx : list Scanner.Effect,
             alerts_sent ch token (Processing (token_address p) :: fx)
             = alerts_sent ch token fx).
  { intros fx. unfold alerts_sent. simpl. destruct ch; reflexivity. }
  assert (Hsilent : forall fx : list Scanner.Effect,
             token_address p <> token ->
             fx = _send_alerts w
                    (set_processed ({[token_address p]} ∪ processed_tokens s) s) p ->
             alerts_sent ch token fx = 0%nat).
  { intros fx Hne ->. unfold _send_alerts, enabled_channels. simpl.
    destruct (telegram_enabled s), (discord_enabled s), (webhook_enabled s), ch;
      cbn; destruct (String.eqb_spec (token_address p) token);
      try contradiction; reflexivity. }
  split; [set_solver|]. split; [set_solver|].
  destruct (String.eqb_spec (token_address p) token) as [Heq|Hne].
  - subst token. rewrite Hsame, Halert.
    destruct (assess w p) as [msg|[|]]; simpl;
      rewrite ?times_processed_app, ?alerts_sent_app, ?Hs0; cbn;
      (split; [intros; contradiction|]); repeat split; try lia; try set_solver.
  - rewrite (Hother _ Hne), Halert.
    destruct (assess w p) as [msg|[|]]; simpl;
      rewrite ?times_processed_app, ?alerts_sent_app, ?Hs0,
              ?(Hsilent _ Hne eq_refl); cbn;
      repeat split; try lia; try set_solver.
Qed.

Lemma on_new_pairs_counts (w : Scanner.World) (pairs : list TokenPair) (s : MoonScanner)
    (ch : Channel) (token : string) :
  processed_tokens s ⊆ processed_tokens (fst (on_new_pairs w pairs s))
  /\ (token ∈ processed_tokens s ->
      times_processed token (snd (on_new_pairs w pairs s)) = 0%nat
      /\ alerts_sent ch token (snd (on_new_pairs w pairs s)) = 0%nat)
  /\ (times_processed token (snd (on_new_pairs w pairs s)) <= 1)%nat
  /\ (alerts_sent ch token (snd (on_new_pairs w pairs s)) <= 1)%nat.
Proof.
  revert s. induction pairs as [|p pairs IH]; intros s; simpl.
  - repeat split; try (intros; reflexivity); cbn; try lia; try set_solver.
  - pose proof (on_new_pair_counts w p s ch token) as (G1 & G2 & G3 & G4 & G5 & G6).
    destruct (_on_new_pair w p s) as [s1 fx]. simpl in *.
    destruct (IH s1) as (I1 & I2 & I3 & I4).
    destruct (on_new_pairs w pairs s1) as [s2 fx']. simpl in *.
    rewrite times_processed_app, alerts_sent_app.
    split; [set_solver|]. split.
    { intros Hin. destruct (G3 Hin) as [-> ->].
      destruct (I2 (G1 _ Hin)) as [-> ->]. split; reflexivity. }
    destruct (Nat.eq_dec (times_processed token fx + alerts_sent ch token fx)%nat 0%nat)
      as [Hz|Hnz].
    + split; lia.
    + assert (Hin : token ∈ processed_tokens s1) by (apply G6; lia).
      destruct (I2 Hin) as [-> ->]. split; lia.
Qed.

(** X16.  However often and in whatever order the monitor calls the
    application's observer, also for a token it discovers again after the
    sweep has evicted it, each token address is taken up for processing at
    most once and at most one alert is sent for it on each channel; a token
    that is in the set of processed tokens is never taken up again, and no
    token ever leaves that set. *)
Theorem each_token_processed_once
    (w : Scanner.World) (pairs : list TokenPair) (s : MoonScanner)
    (ch : Channel) (token : string) :
  (times_processed token (snd (on_new_pairs w pairs s)) <= 1)%nat
  /\ (alerts_sent ch token (snd (on_new_pairs w pairs s)) <= 1)%nat
  /\ (token ∈ processed_tokens s ->
      times_processed token (snd (on_new_pairs w pairs s)) = 0%nat
      /\ alerts_sent ch token (snd (on_new_pairs w pairs s)) = 0%nat)
  /\ processed_tokens s ⊆ processed_tokens (fst (on_new_pairs w pairs s)).
Proof.
  destruct (on_new_pairs_counts w pairs s ch token) as (H1 & H2 & H3 & H4).
  repeat split; try assumption; apply H2; assumption.
Qed.

End ScannerFacts.
